(** * Growth dashboard: the computational core of [streamlit.py]

    The development embeds the three data functions of the dashboard
    ([load_and_preprocess_data], [calculate_growth_rates],
    [calculate_sector_growth]) and the sector filter of [main], and proves
    the properties the design document states about them.

    - A data frame is the list of its rows, a row a finite map from column
      labels to cells.  The loader is given the two sheets as pandas
      parsed them.
    - Numbers are Python numbers.  A whole number of the workbook is an
      [int], exact and unbounded; any other number is an IEEE 754 binary64
      [float], and an empty cell is the float NaN.  A column in which
      pandas finds a fraction or an empty cell is a column of floats, and
      then its whole numbers are floats too.
    - Python exceptions are explicit results, and every division of the
      growth calculator that yields a quotient is recorded in a trace.
    - [merge], [groupby], [median], [isin] and [np.mean] belong to pandas
      and numpy; they are written out here from their definitions. *)

From Stdlib Require Import ZArith Bool List Floats Uint63 Lia Sorted.
From stdpp Require Import base option list gmap strings.
Import ListNotations.

Set Warnings "-inexact-float".

Local Open Scope string_scope.
Local Open Scope list_scope.

(** ** Spreadsheet cells *)

(** A cell read by pandas from the workbook: a whole number, a float
    (empty cells are NaN) or a piece of text. *)
Inductive cell : Type :=
  | Int (z : Z)
  | Num (f : float)
  | Text (s : string).

(** [pd.isna] on a scalar. *)
Definition isna (c : cell) : bool :=
  match c with
  | Int _ => false
  | Num f => is_nan f
  | Text _ => false
  end.

(** The missing value pandas fills in. *)
Definition NaN : cell := Num nan.

(** Python's [c == 0]. *)
Definition eq_zero (c : cell) : bool :=
  match c with
  | Int z => (z =? 0)%Z
  | Num f => (f =? 0)%float
  | Text _ => false
  end.

(** The whole number a binary number stands for, when it stands for
    one. *)
Definition whole_of (a : spec_float) : option Z :=
  match a with
  | S754_zero _ => Some 0%Z
  | S754_finite s m e =>
      if (0 <=? e)%Z then Some (cond_Zopp s (Z.pos m * 2 ^ e))
      else if (Z.pos m mod 2 ^ (- e) =? 0)%Z
           then Some (cond_Zopp s (Z.pos m / 2 ^ (- e)))
           else None
  | S754_infinity _ | S754_nan => None
  end.

(** Python's [z == f] for an [int] and a [float]: equality of the two
    values, without rounding. *)
Definition int_eqb_float (z : Z) (f : float) : bool :=
  match whole_of (Prim2SF f) with
  | Some w => (z =? w)%Z
  | None => false
  end.

(** Equality of labels as pandas' hash tables decide it ([merge], [isin],
    [groupby]): value equality, all missing values alike. *)
Definition key_eqb (a b : cell) : bool :=
  match a, b with
  | Int x, Int y => (x =? y)%Z
  | Int x, Num y => int_eqb_float x y
  | Num x, Int y => int_eqb_float y x
  | Num x, Num y => (x =? y)%float || (is_nan x && is_nan y)
  | Text s, Text t => String.eqb s t
  | _, _ => false
  end.

(** One row of a data frame: column label to cell. *)
Abbreviation row := (gmap string cell).

(** ** Exceptions and the division trace *)

Inductive exn : Type :=
  | KeyError
  | IndexError
  | TypeError
  | ZeroDivisionError
  | OverflowError
  | ValueError.

Inductive res (A : Type) : Type :=
  | Ok (a : A)
  | Raise (e : exn).
Arguments Ok {A} a.
Arguments Raise {A} e.

(** A Python number: an [int] or a [float]. *)
Inductive number : Type :=
  | PyInt (z : Z)
  | PyFloat (f : float).

(** A division that yielded a quotient: the two operands of [/]. *)
Record division : Type := Div { dividend : number; divisor : number }.

(** A computation yields a result or an exception, and the divisions it
    performed on the way. *)
Definition M (A : Type) : Type := (res A * list division)%type.

Definition ret {A} (a : A) : M A := (Ok a, []).
Definition raise {A} (e : exn) : M A := (Raise e, []).
Definition tell (d : division) : M unit := (Ok tt, [d]).

(** A step that performs no division. *)
Definition lift {A} (x : res A) : M A := (x, []).

Definition bind {A B} (m : M A) (k : A -> M B) : M B :=
  match m with
  | (Ok a, t) => let '(r, t') := k a in (r, t ++ t')
  | (Raise e, t) => (Raise e, t)
  end.

(** [try: m except Exception: h] *)
Definition try_except {A} (m : M A) (h : M A) : M A :=
  match m with
  | (Ok a, t) => (Ok a, t)
  | (Raise _, t) => let '(r, t') := h in (r, t ++ t')
  end.

Definition result {A} (m : M A) : res A := fst m.
Definition trace {A} (m : M A) : list division := snd m.

Notation "x <- m ;; k" := (bind m (fun x => k))
  (at level 100, m at next level, right associativity).

(** ** Python operations on cells *)

(** [row[label]] *)
Definition getitem (r : row) (label : string) : M cell :=
  match r !! label with
  | Some c => ret c
  | None => raise KeyError
  end.

(** [columns[i]] *)
Definition column_at (columns : list string) (i : nat) : M string :=
  match columns !! i with
  | Some c => ret c
  | None => raise IndexError
  end.

(** The operand of an arithmetic operator: text is refused. *)
Definition number_of (c : cell) : res number :=
  match c with
  | Int z => Ok (PyInt z)
  | Num f => Ok (PyFloat f)
  | Text _ => Raise TypeError
  end.

(** A whole number as a binary number that is not rounded yet. *)
Definition Z2SF (z : Z) : spec_float :=
  match z with
  | Z0 => S754_zero false
  | Zpos p => S754_finite false p 0
  | Zneg p => S754_finite true p 0
  end.

(** [float(z)]: the float nearest to [z], ties to even; Python refuses a
    whole number beyond the range of floats. *)
Definition float_of_int (z : Z) : res float :=
  match binary_normalize prec emax z 0 false with
  | S754_infinity _ => Raise OverflowError
  | a => Ok (SF2Prim a)
  end.

(** A float operand of a mixed operation: an [int] is converted. *)
Definition as_float (n : number) : res float :=
  match n with
  | PyInt z => float_of_int z
  | PyFloat f => Ok f
  end.

(** [a / b] for two [int]: the quotient of the two whole numbers, rounded
    once, to the nearest float; a zero divisor and a quotient beyond the
    range of floats are refused. *)
Definition int_truediv (a b : Z) : res float :=
  if (b =? 0)%Z then Raise ZeroDivisionError
  else
    match SF64div (Z2SF a) (Z2SF b) with
    | S754_infinity _ => Raise OverflowError
    | q => Ok (SF2Prim q)
    end.

(** [x / y] for two floats: Python refuses a zero divisor. *)
Definition float_truediv (x y : float) : res float :=
  if (y =? 0)%float then Raise ZeroDivisionError else Ok (x / y)%float.

(** [a - b]: exact on two [int], in binary64 otherwise. *)
Definition py_sub (a b : cell) : M number :=
  x <- lift (number_of a) ;;
  y <- lift (number_of b) ;;
  match x, y with
  | PyInt z, PyInt w => ret (PyInt (z - w))
  | _, _ =>
      fx <- lift (as_float x) ;;
      fy <- lift (as_float y) ;;
      ret (PyFloat (fx - fy)%float)
  end.

(** [x / b]: a division that yields a quotient is recorded. *)
Definition py_truediv (x : number) (b : cell) : M float :=
  y <- lift (number_of b) ;;
  q <- match x, y with
       | PyInt z, PyInt w => lift (int_truediv z w)
       | _, _ =>
           fx <- lift (as_float x) ;;
           fy <- lift (as_float y) ;;
           lift (float_truediv fx fy)
       end ;;
  _ <- tell (Div x y) ;;
  ret q.

(** [x * 100] for a float [x]. *)
Definition py_mul100 (x : float) : M float := ret (x * 100)%float.

(** [np.mean] of a Python list of floats: the running sum from the left,
    divided by the count; the empty list gives 0/0, which is NaN. *)
Definition float_of_nat (n : nat) : float :=
  of_uint63 (Uint63.of_Z (Z.of_nat n)).

Definition np_sum (l : list float) : float :=
  fold_left PrimFloat.add l 0%float.

Definition np_mean (l : list float) : float :=
  (np_sum l / float_of_nat (length l))%float.

(** ** The growth calculator *)

Inductive metric : Type := Total_Revenue | Net_Income | EBITDA.

(** The [metrics] dictionary of [calculate_growth_rates]. *)
Definition columns_of (m : metric) : list string :=
  match m with
  | Total_Revenue =>
      ["Total Revenue [LTM - 16]"; "Total Revenue [LTM - 12]";
       "Total Revenue [LTM - 8]"; "Total Revenue [LTM - 4]";
       "Total Revenue [LTM]"]
  | Net_Income =>
      ["Net Income [LTM - 16]"; "Net Income [LTM - 12]";
       "Net Income [LTM - 8]"; "Net Income [LTM - 4]";
       "Net Income [LTM]"]
  | EBITDA =>
      ["EBITDA [LTM - 16]"; "EBITDA [LTM - 12]";
       "EBITDA [LTM - 8]"; "EBITDA [LTM - 4]"; "EBITDA [LTM]"]
  end.

Definition metrics : list metric := [Total_Revenue; Net_Income; EBITDA].

(** The decision taken once both endpoint values are at hand (lines 50-54). *)
Definition growth_of_values (current_value previous_value : cell)
  : M (option float) :=
  if isna current_value || isna previous_value || eq_zero previous_value
  then ret None
  else
    d <- py_sub current_value previous_value ;;
    q <- py_truediv d previous_value ;;
    growth_rate <- py_mul100 q ;;
    ret (Some growth_rate).

(** The body of the [try] block for slot [i] (lines 46-54). *)
Definition slot_body (r : row) (columns : list string) (i : nat)
  : M (option float) :=
  ci <- column_at columns i ;;
  current_value <- getitem r ci ;;
  cp <- column_at columns (i - 1) ;;
  previous_value <- getitem r cp ;;
  growth_of_values current_value previous_value.

(** One iteration of the inner loop: the [try] block and its handler. *)
Definition growth_slot (r : row) (columns : list string) (i : nat)
  : M (option float) :=
  try_except (slot_body r columns i) (ret None).

(** [for i in range(1, len(columns))], appending to [growth_rates]. *)
Fixpoint growth_loop (r : row) (columns : list string) (idx : list nat)
  : M (list (option float)) :=
  match idx with
  | [] => ret []
  | i :: rest =>
      g <- growth_slot r columns i ;;
      gs <- growth_loop r columns rest ;;
      ret (g :: gs)
  end.

Definition slot_indices (columns : list string) : list nat :=
  seq 1 (length columns - 1).

(** [[g for g in growth_rates if g is not None]] *)
Definition defined_slots (growth_rates : list (option float)) : list float :=
  omap id growth_rates.

(** The body of the loop over metrics: the slots and their average. *)
Definition metric_growth (r : row) (m : metric)
  : M (list (option float) * float) :=
  growth_rates <- growth_loop r (columns_of m) (slot_indices (columns_of m)) ;;
  ret (growth_rates, np_mean (defined_slots growth_rates)).

(** The dictionary built for one company; it becomes one row of the
    growth table. *)
Record company_growth : Type := {
  Ticker : cell;
  Company_Name : cell;
  Sector : cell;
  Total_Revenue_Growth_Rates : list (option float);
  Total_Revenue_Avg_Growth : float;
  Net_Income_Growth_Rates : list (option float);
  Net_Income_Avg_Growth : float;
  EBITDA_Growth_Rates : list (option float);
  EBITDA_Avg_Growth : float
}.

Definition Growth_Rates (m : metric) (g : company_growth)
  : list (option float) :=
  match m with
  | Total_Revenue => Total_Revenue_Growth_Rates g
  | Net_Income => Net_Income_Growth_Rates g
  | EBITDA => EBITDA_Growth_Rates g
  end.

Definition Avg_Growth (m : metric) (g : company_growth) : float :=
  match m with
  | Total_Revenue => Total_Revenue_Avg_Growth g
  | Net_Income => Net_Income_Avg_Growth g
  | EBITDA => EBITDA_Avg_Growth g
  end.

(** The body of [for _, row in df.iterrows()]. *)
Definition company_growth_of (r : row) : M company_growth :=
  ticker <- getitem r "Exchange:Ticker" ;;
  name <- getitem r "Company Name" ;;
  sector <- getitem r "Sector" ;;
  tr <- metric_growth r Total_Revenue ;;
  ni <- metric_growth r Net_Income ;;
  eb <- metric_growth r EBITDA ;;
  ret {| Ticker := ticker; Company_Name := name; Sector := sector;
         Total_Revenue_Growth_Rates := fst tr;
         Total_Revenue_Avg_Growth := snd tr;
         Net_Income_Growth_Rates := fst ni;
         Net_Income_Avg_Growth := snd ni;
         EBITDA_Growth_Rates := fst eb;
         EBITDA_Avg_Growth := snd eb |}.

Fixpoint calculate_growth_rates (df : list row) : M (list company_growth) :=
  match df with
  | [] => ret []
  | r :: rest =>
      g <- company_growth_of r ;;
      gs <- calculate_growth_rates rest ;;
      ret (g :: gs)
  end.

(** ** The sector aggregator *)

(** Ascending order, as [groupby] orders its keys and the median orders its
    values. *)
Fixpoint insert_by {A} (leb : A -> A -> bool) (x : A) (l : list A) : list A :=
  match l with
  | [] => [x]
  | y :: t => if leb x y then x :: l else y :: insert_by leb x t
  end.

Definition sort_by {A} (leb : A -> A -> bool) (l : list A) : list A :=
  fold_right (insert_by leb) [] l.

(** Values that take part in an aggregation: pandas skips NaN. *)
Definition dropna (l : list float) : list float :=
  List.filter (fun x => negb (is_nan x)) l.

(** The median pandas computes for one group: NaN are skipped, no value
    left gives NaN, an odd count gives the middle value in ascending order
    and an even count the mean of the two middle values. *)
Definition pd_median (l : list float) : float :=
  let a := sort_by PrimFloat.leb (dropna l) in
  let n := length a in
  match n with
  | 0 => nan
  | _ =>
      if Nat.odd n then nth (n / 2) a nan
      else ((nth (n / 2) a nan + nth (n / 2 - 1) a nan) / 2)%float
  end.

(** First occurrences of the labels, up to [key_eqb]. *)
Fixpoint unique (l : list cell) : list cell :=
  match l with
  | [] => []
  | x :: t => x :: List.filter (fun y => negb (key_eqb x y)) (unique t)
  end.

Definition is_number (c : cell) : bool :=
  match c with Int _ | Num _ => true | Text _ => false end.

Definition text_of (c : cell) : option string :=
  match c with Text s => Some s | Int _ | Num _ => None end.

(** [z <= a] and [a <= z] for a whole number and a binary number, decided
    on the two values without rounding, as Python compares an [int] with
    a [float]. *)
Definition int_leb_SF (z : Z) (a : spec_float) : bool :=
  match a with
  | S754_zero _ => (z <=? 0)%Z
  | S754_finite s m e =>
      if (0 <=? e)%Z then (z <=? cond_Zopp s (Z.pos m * 2 ^ e))%Z
      else (z * 2 ^ (- e) <=? cond_Zopp s (Z.pos m))%Z
  | S754_infinity s => negb s
  | S754_nan => false
  end.

Definition SF_leb_int (a : spec_float) (z : Z) : bool :=
  match a with
  | S754_zero _ => (0 <=? z)%Z
  | S754_finite s m e =>
      if (0 <=? e)%Z then (cond_Zopp s (Z.pos m * 2 ^ e) <=? z)%Z
      else (cond_Zopp s (Z.pos m) <=? z * 2 ^ (- e))%Z
  | S754_infinity s => s
  | S754_nan => false
  end.

(** Python's [a <= b] on two numbers. *)
Definition num_leb (a b : cell) : bool :=
  match a, b with
  | Int x, Int y => (x <=? y)%Z
  | Int x, Num y => int_leb_SF x (Prim2SF y)
  | Num x, Int y => SF_leb_int (Prim2SF x) y
  | Num x, Num y => (x <=? y)%float
  | _, _ => false
  end.

(** The order of group keys: numbers ascending, then text ascending. *)
Definition sort_keys (ks : list cell) : list cell :=
  sort_by num_leb (List.filter is_number ks)
  ++ map Text (sort_by String.leb (omap text_of ks)).

(** The keys of [groupby('Sector')]: a missing label forms no group
    ([dropna=True] is the default of [groupby]). *)
Definition group_keys (growth_df : list company_growth) : list cell :=
  sort_keys (unique (List.filter (fun c => negb (isna c)) (map Sector growth_df))).

(** The records of one group. *)
Definition group_of (k : cell) (growth_df : list company_growth)
  : list company_growth :=
  List.filter (fun g => key_eqb k (Sector g)) growth_df.

Module SectorGrowth.
Record t : Type := {
  Sector : cell;
  Total_Revenue_Avg_Growth : float;
  Net_Income_Avg_Growth : float;
  EBITDA_Avg_Growth : float
}.

Definition Avg_Growth (m : metric) (s : t) : float :=
  match m with
  | Total_Revenue => Total_Revenue_Avg_Growth s
  | Net_Income => Net_Income_Avg_Growth s
  | EBITDA => EBITDA_Avg_Growth s
  end.
End SectorGrowth.

(** [.agg({... : 'median'})] for one group and one column. *)
Definition agg_median (m : metric) (k : cell) (growth_df : list company_growth)
  : float :=
  pd_median (map (Avg_Growth m) (group_of k growth_df)).

Definition sector_record (growth_df : list company_growth) (k : cell)
  : SectorGrowth.t :=
  {| SectorGrowth.Sector := k;
     SectorGrowth.Total_Revenue_Avg_Growth := agg_median Total_Revenue k growth_df;
     SectorGrowth.Net_Income_Avg_Growth := agg_median Net_Income k growth_df;
     SectorGrowth.EBITDA_Avg_Growth := agg_median EBITDA k growth_df |}.

(** A frame built from no dictionary has no column at all, so
    [groupby('Sector')] fails on it. *)
Definition calculate_sector_growth (growth_df : list company_growth)
  : res (list SectorGrowth.t) :=
  match growth_df with
  | [] => Raise KeyError
  | _ :: _ => Ok (map (sector_record growth_df) (group_keys growth_df))
  end.


(** ** The loader *)

(** Line 15, [sector_df.columns = ['Ticker', 'Sector']].  The sector sheet
    is read without a header row and is given by its rows of two cells; a
    sheet without rows is a frame without columns, and naming its columns
    fails. *)
Definition name_columns (sector_df : list (cell * cell))
  : res (list (cell * cell)) :=
  match sector_df with
  | [] => Raise ValueError
  | _ :: _ => Ok sector_df
  end.

(** A column coming from the right frame; a label already present on the
    left is kept apart by the suffixes [_x] and [_y]. *)
Definition add_right_column (name : string) (v : cell) (r : row) : row :=
  match r !! name with
  | Some old =>
      <[String.append name "_y" := v]>
        (<[String.append name "_x" := old]> (delete name r))
  | None => <[name := v]> r
  end.

(** A financial row joined with one row of the sector sheet. *)
Definition join_row (r : row) (entry : cell * cell) : row :=
  add_right_column "Sector" (snd entry)
    (add_right_column "Ticker" (fst entry) r).

(** The rows of the sector sheet whose ticker is [key], in sheet order. *)
Definition matches (key : cell) (sector_df : list (cell * cell))
  : list (cell * cell) :=
  List.filter (fun e => key_eqb key (fst e)) sector_df.

(** The rows a left join produces for one left row with key [key]. *)
Definition merge_row (sector_df : list (cell * cell)) (r : row) (key : cell)
  : list row :=
  match matches key sector_df with
  | [] => [join_row r (NaN, NaN)]
  | ms => map (join_row r) ms
  end.

(** [financial_df['Exchange:Ticker']], the key column of the left frame. *)
Fixpoint left_keys (financial_df : list row) : res (list cell) :=
  match financial_df with
  | [] => Ok []
  | r :: rest =>
      match r !! "Exchange:Ticker" with
      | None => Raise KeyError
      | Some key =>
          match left_keys rest with
          | Raise e => Raise e
          | Ok keys => Ok (key :: keys)
          end
      end
  end.

Definition is_text (c : cell) : bool :=
  match c with Text _ => true | Int _ | Num _ => false end.

Definition is_int (c : cell) : bool :=
  match c with Int _ => true | Num _ | Text _ => false end.

(** The check [merge] makes on the two key columns.  A column that holds
    text is a column of objects, any other a column of numbers.  Two
    columns of one kind join, and a column without rows joins with any.
    Objects join with numbers when a whole number is found among the
    objects; objects that are text and floats only are refused. *)
Definition mergeable_keys (lk rk : list cell) : bool :=
  match lk, rk with
  | [], _ | _, [] => true
  | _, _ =>
      match existsb is_text lk, existsb is_text rk with
      | true, false => existsb is_int lk
      | false, true => existsb is_int rk
      | _, _ => true
      end
  end.

(** Lines 14-18 on the two sheets as pandas parsed them: the columns of
    the sector sheet are named, then
    [financial_df.merge(sector_df, left_on='Exchange:Ticker',
    right_on='Ticker', how='left')]. *)
Definition load_and_preprocess_data (financial_df : list row)
    (sector_df : list (cell * cell)) : res (list row) :=
  match name_columns sector_df with
  | Raise e => Raise e
  | Ok sector_df =>
      match left_keys financial_df with
      | Raise e => Raise e
      | Ok keys =>
          if mergeable_keys keys (map fst sector_df)
          then Ok (concat (zip_with (merge_row sector_df) financial_df keys))
          else Raise ValueError
      end
  end.

(** ** The sector filter of [main] *)

(** [Series.isin(values)] for one label. *)
Definition isin (values : list cell) (c : cell) : bool :=
  existsb (key_eqb c) values.

(** The tables [main] derives, and the views it shows. *)
Record tables : Type := {
  growth_df : list company_growth;
  sector_growth_df : list SectorGrowth.t
}.

Record views : Type := {
  underlying : tables;
  filtered_growth_df : list company_growth;
  filtered_sector_growth_df : list SectorGrowth.t
}.

(** Lines 109-110: boolean indexing builds new frames. *)
Definition filter_data (selected_sectors : list cell) (d : tables) : views :=
  {| underlying := d;
     filtered_growth_df :=
       List.filter (fun g => isin selected_sectors (Sector g)) (growth_df d);
     filtered_sector_growth_df :=
       List.filter (fun s => isin selected_sectors (SectorGrowth.Sector s))
         (sector_growth_df d) |}.

(** ** Notions used in the statements *)

(** What the slot holds after the [try] statement, and the divisions the
    statement performed. *)
Definition slot_value (r : row) (columns : list string) (i : nat)
  : option float :=
  match result (growth_slot r columns i) with
  | Ok v => v
  | Raise _ => None
  end.

Definition slot_trace (r : row) (columns : list string) (i : nat)
  : list division :=
  trace (growth_slot r columns i).


(** A cell that holds no usable number: empty, or text. *)
Definition not_a_number (c : cell) : bool :=
  match c with
  | Int _ => false
  | Num f => is_nan f
  | Text _ => true
  end.

(** The quotient once multiplied by one hundred, [None] when the
    arithmetic raised. *)
Definition percent (q : res float) : option float :=
  match q with
  | Ok q => Some (q * 100)%float
  | Raise _ => None
  end.

(** The divisor of a division is a number other than zero. *)
Definition sound_division (d : division) : Prop :=
  match divisor d with
  | PyInt z => z <> 0%Z
  | PyFloat f => is_nan f = false /\ (f =? 0)%float = false
  end.

(** The four slots of a metric for a row, and the divisions they cost. *)
Definition rates (r : row) (m : metric) : list (option float) :=
  map (slot_value r (columns_of m)) (slot_indices (columns_of m)).

Definition metric_trace (r : row) (m : metric) : list division :=
  concat (map (slot_trace r (columns_of m)) (slot_indices (columns_of m))).

(** The record the calculator builds for a row with the given identity
    cells. *)
Definition growth_record (r : row) (ticker name sector : cell)
  : company_growth :=
  {| Ticker := ticker; Company_Name := name; Sector := sector;
     Total_Revenue_Growth_Rates := rates r Total_Revenue;
     Total_Revenue_Avg_Growth := np_mean (defined_slots (rates r Total_Revenue));
     Net_Income_Growth_Rates := rates r Net_Income;
     Net_Income_Avg_Growth := np_mean (defined_slots (rates r Net_Income));
     EBITDA_Growth_Rates := rates r EBITDA;
     EBITDA_Avg_Growth := np_mean (defined_slots (rates r EBITDA)) |}.

Definition row_trace (r : row) : list division :=
  metric_trace r Total_Revenue ++ metric_trace r Net_Income
  ++ metric_trace r EBITDA.

(** [g] is the growth record of row [r]. *)
Definition record_of (r : row) (g : company_growth) : Prop :=
  exists ticker name sector,
    r !! "Exchange:Ticker" = Some ticker /\
    r !! "Company Name" = Some name /\
    r !! "Sector" = Some sector /\
    g = growth_record r ticker name sector.

(** The rows the calculator accepts: the three identity columns exist. *)
Definition identified (r : row) : Prop :=
  is_Some (r !! "Exchange:Ticker") /\ is_Some (r !! "Company Name")
  /\ is_Some (r !! "Sector").

(** A cell of a snapshot column that holds the whole number [z], as an
    [int] or as the float [x] of the same value. *)
Definition holds (r : row) (column : string) (z : Z) (x : float) : Prop :=
  r !! column = Some (Int z) \/ r !! column = Some (Num x).

(** A prior value for which a fall to zero can be measured: a number other
    than zero within the finite range of floats. *)
Definition finite_nonzero (p : cell) : bool :=
  match p with
  | Int z =>
      negb (z =? 0)%Z
      && match float_of_int z with Ok _ => true | Raise _ => false end
  | Num y => negb (is_nan y) && negb (is_infinity y) && negb (y =? 0)%float
  | Text _ => false
  end.

(** Line 53 on two cells that hold numbers, in Python's arithmetic and
    without its exceptions: [None] where Python raises. *)
Definition percent_change (c p : cell) : option float :=
  match c, p with
  | Int a, Int b => percent (int_truediv (a - b) b)
  | Int a, Num y =>
      match float_of_int a with
      | Ok fa => Some ((fa - y) / y * 100)%float
      | Raise _ => None
      end
  | Num x, Int b =>
      match float_of_int b with
      | Ok fb => Some ((x - fb) / fb * 100)%float
      | Raise _ => None
      end
  | Num x, Num y => Some ((x - y) / y * 100)%float
  | Text _, _ | _, Text _ => None
  end.

(** The value a float stands for as a label: the two zeros are one. *)
Definition sf_class (a : spec_float) : spec_float :=
  match a with
  | S754_zero _ => S754_zero false
  | _ => a
  end.

(** The class of a label: what [key_eqb] compares.  A float that stands
    for a whole number is in the class of that number. *)
Definition key_class (c : cell) : (Z + spec_float) + string :=
  match c with
  | Int z => inl (inl z)
  | Num x =>
      match whole_of (Prim2SF x) with
      | Some z => inl (inl z)
      | None => inl (inr (sf_class (Prim2SF x)))
      end
  | Text s => inr s
  end.

(** A list in ascending order: each value is below the next one. *)
Definition ascending {A : Type} (leb : A -> A -> bool) : list A -> Prop :=
  Sorted (fun a b => leb a b = true).

(** A worked workbook: companies A and B of sector Tech, and XYZ, which the
    sector sheet does not list. *)
Definition snapshot_cells (m : metric) (values : list cell)
  : list (string * cell) :=
  zip (columns_of m) values.

Definition financial_row (ticker name : string)
    (revenue income ebitda : list cell) : row :=
  list_to_map
    ([("Exchange:Ticker", Text ticker); ("Company Name", Text name)]
     ++ snapshot_cells Total_Revenue revenue
     ++ snapshot_cells Net_Income income
     ++ snapshot_cells EBITDA ebitda).

Definition company_A : row :=
  financial_row "A" "Company A"
    [Num 100; Num 110; NaN; Num 121; Num 133.1]
    [Num 10; Num 12; Num 15; Num 18; Num 20]
    [Num 20; Num 22; Num 25; Num 30; Num 33].

Definition company_B : row :=
  financial_row "B" "Company B"
    [Num 0; Num 50; Num 55; Num 60; Num 66]
    [Num 5; Num 0; Num 4; Num 6; Num 9]
    [Num 8; Num 10; Text "pending"; Num 12; Num 15].

Definition company_XYZ : row :=
  financial_row "XYZ" "Company XYZ"
    [Num 200; Num 220; Num 242; Num 266.2; Num 292.82]
    [Num 20; Num 22; Num 24; Num 26; Num 28]
    [Num 40; Num 44; Num 48; Num 52; Num 56].

Definition financial_sheet : list row := [company_A; company_B; company_XYZ].

Definition sector_sheet : list (cell * cell) :=
  [(Text "A", Text "Tech"); (Text "B", Text "Tech")].

(** The sheet after the join, the growth table and the sector table of
    the worked workbook. *)
Definition joined_sheet : list row :=
  [join_row company_A (Text "A", Text "Tech");
   join_row company_B (Text "B", Text "Tech");
   join_row company_XYZ (NaN, NaN)].

(** Company C reports whole numbers, company D an infinite figure. *)
Definition company_C : row :=
  financial_row "C" "Company C"
    [Int (-5891877476988529); Int 4219827586217624; Int 0; Int 50; Num 55]
    [Int 5; Int 0; Int 4; Num 6; Int 9]
    [Num 8; Int 10; Int 12; Int 12; Int 15].

Definition company_D : row :=
  financial_row "D" "Company D"
    [Num 100; Num 110; Num 120; Num 130; Num 140]
    [Num infinity; Num 0; Num 4; Num 6; Num 9]
    [Num 8; Num 10; Num 11; Num 12; Num 15].

Definition whole_sheet : list row :=
  [join_row company_C (Text "C", Text "Tech");
   join_row company_D (Text "D", Text "Energy")].

Definition growth_A : company_growth :=
  {| Ticker := Text "A"; Company_Name := Text "Company A";
     Sector := Text "Tech";
     Total_Revenue_Growth_Rates :=
       [Some 10%float; None; None; Some 9.9999999999999947%float];
     Total_Revenue_Avg_Growth := 9.9999999999999964;
     Net_Income_Growth_Rates :=
       [Some 20%float; Some 25%float; Some 20%float;
        Some 11.111111111111111%float];
     Net_Income_Avg_Growth := 19.027777777777779;
     EBITDA_Growth_Rates :=
       [Some 10%float; Some 13.636363636363635%float; Some 20%float;
        Some 10%float];
     EBITDA_Avg_Growth := 13.409090909090908 |}.

Definition growth_B : company_growth :=
  {| Ticker := Text "B"; Company_Name := Text "Company B";
     Sector := Text "Tech";
     Total_Revenue_Growth_Rates :=
       [None; Some 10%float; Some 9.0909090909090917%float; Some 10%float];
     Total_Revenue_Avg_Growth := 9.6969696969696972;
     Net_Income_Growth_Rates :=
       [Some (-100)%float; None; Some 50%float; Some 50%float];
     Net_Income_Avg_Growth := 0;
     EBITDA_Growth_Rates := [Some 25%float; None; None; Some 25%float];
     EBITDA_Avg_Growth := 25 |}.

Definition growth_XYZ : company_growth :=
  {| Ticker := Text "XYZ"; Company_Name := Text "Company XYZ";
     Sector := NaN;
     Total_Revenue_Growth_Rates :=
       [Some 10%float; Some 10%float; Some 9.9999999999999947%float;
        Some 10.000000000000002%float];
     Total_Revenue_Avg_Growth := 9.9999999999999982;
     Net_Income_Growth_Rates :=
       [Some 10%float; Some 9.0909090909090917%float;
        Some 8.3333333333333321%float; Some 7.6923076923076925%float];
     Net_Income_Avg_Growth := 8.7791375291375289;
     EBITDA_Growth_Rates :=
       [Some 10%float; Some 9.0909090909090917%float;
        Some 8.3333333333333321%float; Some 7.6923076923076925%float];
     EBITDA_Avg_Growth := 8.7791375291375289 |}.

Definition growth_table : list company_growth :=
  [growth_A; growth_B; growth_XYZ].

Definition sector_Tech : SectorGrowth.t :=
  {| SectorGrowth.Sector := Text "Tech";
     SectorGrowth.Total_Revenue_Avg_Growth := 9.8484848484848477;
     SectorGrowth.Net_Income_Avg_Growth := 9.5138888888888893;
     SectorGrowth.EBITDA_Avg_Growth := 19.204545454545453 |}.

(** No two rows of the sector sheet carry the same ticker. *)
Fixpoint distinct_tickers (sector_df : list (cell * cell)) : bool :=
  match sector_df with
  | [] => true
  | e :: rest =>
      forallb (fun e' => negb (key_eqb (fst e) (fst e'))) rest
      && distinct_tickers rest
  end.

(** The column in which a joined row holds the sector of the sheet. *)
Definition sector_column (r : row) : string :=
  match r !! "Sector" with
  | Some _ => "Sector_y"
  | None => "Sector"
  end.

(** The labels a join may touch. *)
Definition join_labels : list string :=
  ["Ticker"; "Ticker_x"; "Ticker_y"; "Sector"; "Sector_x"; "Sector_y"].

(** ** The pipeline of [main] *)

(** [growth_df['Sector'].unique()], the options of the sector selector:
    the labels in order of first appearance, the missing label among
    them. *)
Definition sector_options (growth : list company_growth) : list cell :=
  unique (map Sector growth).


(** Lines 88-110 of [main]: the three tables are derived one from the
    other, the selector returns a choice among its options ([select];
    its default is all of them), and the two views are filtered by it. *)
Definition main_views (financial_df : list row)
    (sector_df : list (cell * cell)) (select : list cell -> list cell)
  : M views :=
  financial <- lift (load_and_preprocess_data financial_df sector_df) ;;
  growth <- calculate_growth_rates financial ;;
  sector_growth <- lift (calculate_sector_growth growth) ;;
  ret (filter_data (select (sector_options growth))
         {| growth_df := growth; sector_growth_df := sector_growth |}).

(** ** Further notions used in the statements *)

(** The columns [calculate_growth_rates] reads. *)
Definition used_columns : list string :=
  ["Exchange:Ticker"; "Company Name"; "Sector"]
  ++ columns_of Total_Revenue ++ columns_of Net_Income ++ columns_of EBITDA.

(** The number of slots of a growth record that hold a number. *)
Definition defined_count (g : company_growth) : nat :=
  length (defined_slots (Total_Revenue_Growth_Rates g))
  + length (defined_slots (Net_Income_Growth_Rates g))
  + length (defined_slots (EBITDA_Growth_Rates g)).

(** A growth record whose sector is not missing. *)
Definition labelled (g : company_growth) : bool := negb (isna (Sector g)).

(** Where every row of a join comes from. *)
Definition joined_from (financial_df : list row)
    (sector_df : list (cell * cell)) (j : row) : Prop :=
  exists (r : row) key entry,
    In r financial_df
    /\ r !! "Exchange:Ticker" = Some key
    /\ j = join_row r entry
    /\ ((matches key sector_df = [] /\ entry = (NaN, NaN))
        \/ (In entry sector_df /\ key_eqb key (fst entry) = true)).

(** * Properties *)
(** ** The monad *)

Lemma bind_ret_l {A B} (a : A) (k : A -> M B) : bind (ret a) k = k a.
Proof. unfold bind, ret. destruct (k a) as [r t]. reflexivity. Qed.

Lemma bind_raise_l {A B} (e : exn) (k : A -> M B) : bind (raise e) k = raise e.
Proof. reflexivity. Qed.

Lemma bind_ok {A B} (a : A) (t : list division) (k : A -> M B) :
  bind (Ok a, t) k = (result (k a), t ++ trace (k a)).
Proof. unfold bind, result, trace. destruct (k a) as [r t']. reflexivity. Qed.

Lemma M_eta {A} (m : M A) : m = (result m, trace m).
Proof. destruct m. reflexivity. Qed.


Lemma bind_raise {A B} (e : exn) (t : list division) (k : A -> M B) :
  bind (Raise e, t) k = (Raise e, t).
Proof. reflexivity. Qed.

(** ** Facts about binary64 arithmetic *)

Lemma digits2_pos_size (p : positive) : digits2_pos p = Pos.size p.
Proof. induction p as [p IH | p IH |]; simpl; congruence. Qed.

Lemma Zdigits2_log2 (p : positive) :
  Zdigits2 (Z.pos p) = (Z.log2 (Z.pos p) + 1)%Z.
Proof.
  simpl. rewrite digits2_pos_size. destruct p; simpl; lia.
Qed.

(** The number of digits of a positive number places it between two
    powers of two. *)
Lemma Zdigits2_bounds (m : Z) :
  (0 < m)%Z -> (2 ^ (Zdigits2 m - 1) <= m < 2 ^ Zdigits2 m)%Z.
Proof.
  intros Hm. destruct m as [| p | p]; try lia.
  rewrite Zdigits2_log2.
  pose proof (Z.log2_spec (Z.pos p) Hm) as H.
  replace (Z.log2 (Z.pos p) + 1 - 1)%Z with (Z.log2 (Z.pos p)) by lia.
  replace (Z.log2 (Z.pos p) + 1)%Z with (Z.succ (Z.log2 (Z.pos p))) by lia.
  exact H.
Qed.

Lemma Zdigits2_unique (m k : Z) :
  (2 ^ (k - 1) <= m < 2 ^ k)%Z -> (1 <= k)%Z -> Zdigits2 m = k.
Proof.
  intros H Hk.
  assert (Hm : (0 < m)%Z).
  { pose proof (Z.pow_pos_nonneg 2 (k - 1)). lia. }
  destruct m as [| p | p]; try lia.
  rewrite Zdigits2_log2.
  rewrite (Z.log2_unique (Z.pos p) (k - 1)); [lia | lia |].
  replace (Z.succ (k - 1)) with k by lia. exact H.
Qed.

Lemma Zdigits2_mul_pow2 (m k : Z) :
  (0 < m)%Z -> (0 <= k)%Z -> Zdigits2 (m * 2 ^ k) = (Zdigits2 m + k)%Z.
Proof.
  intros Hm Hk. pose proof (Zdigits2_bounds m Hm) as [Hlo Hhi].
  assert (Hd : (1 <= Zdigits2 m)%Z) by (destruct m; simpl in *; lia).
  apply Zdigits2_unique; [| lia].
  replace (Zdigits2 m + k - 1)%Z with ((Zdigits2 m - 1) + k)%Z by lia.
  rewrite !Z.pow_add_r by lia.
  pose proof (Z.pow_pos_nonneg 2 k). nia.
Qed.

Lemma Zdigits2_div_pow2 (m n : Z) :
  (0 < m)%Z -> (0 <= n < Zdigits2 m)%Z ->
  Zdigits2 (m / 2 ^ n) = (Zdigits2 m - n)%Z.
Proof.
  intros Hm Hn. pose proof (Zdigits2_bounds m Hm) as [Hlo Hhi].
  assert (Hp : (0 < 2 ^ n)%Z) by (apply Z.pow_pos_nonneg; lia).
  apply Zdigits2_unique; [| lia]. split.
  - apply Z.div_le_lower_bound; [exact Hp |].
    rewrite <- Z.pow_add_r by lia.
    replace (n + (Zdigits2 m - n - 1))%Z with (Zdigits2 m - 1)%Z by lia.
    exact Hlo.
  - apply Z.div_lt_upper_bound; [exact Hp |].
    rewrite <- Z.pow_add_r by lia.
    replace (n + (Zdigits2 m - n))%Z with (Zdigits2 m) by lia. exact Hhi.
Qed.

(** A shift of a record to the right halves its mantissa. *)
Lemma shr_1_m (mrs : shr_record) :
  (0 <= shr_m mrs)%Z -> shr_m (shr_1 mrs) = (shr_m mrs / 2)%Z.
Proof.
  destruct mrs as [m r s]. simpl. intros Hm.
  destruct m as [| [p | p |] | p]; simpl; try lia; try reflexivity.
  - rewrite Pos2Z.inj_xI. symmetry.
    rewrite Z.mul_comm, Z.div_add_l by lia. reflexivity.
  - rewrite Pos2Z.inj_xO. symmetry. rewrite Z.mul_comm. apply Z.div_mul. lia.
Qed.

Lemma iter_shr_1_m (n : positive) (mrs : shr_record) :
  (0 <= shr_m mrs)%Z ->
  shr_m (SpecFloat.iter_pos shr_1 n mrs) = (shr_m mrs / 2 ^ Z.pos n)%Z.
Proof.
  assert (Hpow : forall p, (0 < 2 ^ Z.pos p)%Z)
    by (intros p; apply Z.pow_pos_nonneg; lia).
  assert (Hdiv : forall a p, (0 <= a)%Z -> (0 <= a / 2 ^ Z.pos p)%Z)
    by (intros a p Ha; apply Z.div_pos; [exact Ha | apply Hpow]).
  revert mrs. induction n as [n IH | n IH |]; intros mrs Hm; simpl.
  - assert (H1 : (0 <= shr_m (shr_1 mrs))%Z)
      by (rewrite shr_1_m by exact Hm; apply Z.div_pos; lia).
    assert (H2 : (0 <= shr_m (SpecFloat.iter_pos shr_1 n (shr_1 mrs)))%Z)
      by (rewrite IH by exact H1; apply Hdiv, H1).
    rewrite (IH _ H2), (IH _ H1), shr_1_m by exact Hm.
    rewrite !Z.div_div by (try apply Hpow; lia).
    f_equal. rewrite Pos2Z.inj_xI, <- Z.pow_add_r, <- Z.pow_succ_r by lia.
    f_equal. lia.
  - assert (H2 : (0 <= shr_m (SpecFloat.iter_pos shr_1 n mrs))%Z)
      by (rewrite IH by exact Hm; apply Hdiv, Hm).
    rewrite (IH _ H2), (IH _ Hm).
    rewrite Z.div_div by (try apply Hpow; lia).
    f_equal. rewrite Pos2Z.inj_xO, <- Z.pow_add_r by lia. f_equal. lia.
  - rewrite shr_1_m by exact Hm. reflexivity.
Qed.

Lemma shr_m_spec (mrs : shr_record) (e n : Z) :
  (0 <= shr_m mrs)%Z -> (0 <= n)%Z ->
  shr_m (fst (shr mrs e n)) = (shr_m mrs / 2 ^ n)%Z
  /\ snd (shr mrs e n) = (e + n)%Z.
Proof.
  intros Hm Hn. destruct n as [| p | p]; simpl; try lia.
  - rewrite Z.div_1_r. split; [reflexivity | lia].
  - split; [apply iter_shr_1_m, Hm | reflexivity].
Qed.

Lemma shr_m_record_of_loc (m : Z) (l : location) :
  shr_m (shr_record_of_loc m l) = m.
Proof. destruct l as [| []]; reflexivity. Qed.

Lemma round_nearest_even_or (m : Z) (l : location) :
  round_nearest_even m l = m \/ round_nearest_even m l = (m + 1)%Z.
Proof.
  unfold round_nearest_even. destruct l as [| []]; auto.
  destruct (IntDef.Z.even m); auto.
Qed.

(** Rounding a mantissa of at least 53 digits whose exponent is not below
    the least one gives a valid finite number, or overflows. *)
Lemma binary_round_aux_normal (s : bool) (m e : Z) (l : location) :
  (0 < m)%Z -> (53 <= Zdigits2 m)%Z -> (-1074 <= e)%Z ->
  (exists m' e', binary_round_aux prec emax s m e l = S754_finite s m' e'
                 /\ valid_binary (S754_finite s m' e') = true)
  \/ binary_round_aux prec emax s m e l = S754_infinity s.
Proof.
  intros Hm Hd He. unfold binary_round_aux, shr_fexp.
  set (n := (fexp prec emax (Zdigits2 m + e) - e)%Z).
  assert (Hn : n = (Zdigits2 m - 53)%Z).
  { unfold n, fexp, SpecFloat.emin, prec, emax. lia. }
  destruct (shr_m_spec (shr_record_of_loc m l) e n) as [Hm1 He1].
  { rewrite shr_m_record_of_loc. lia. }
  { lia. }
  rewrite shr_m_record_of_loc in Hm1.
  destruct (shr (shr_record_of_loc m l) e n) as [mrs1 e1]. simpl in Hm1, He1.
  assert (Hd1 : Zdigits2 (shr_m mrs1) = 53%Z).
  { rewrite Hm1. clearbody n. subst n. rewrite Zdigits2_div_pow2; lia. }
  assert (Hpos1 : (0 < shr_m mrs1)%Z).
  { assert (H0 : (0 <= shr_m mrs1)%Z)
      by (rewrite Hm1; apply Z.div_pos; [| apply Z.pow_pos_nonneg]; lia).
    destruct (shr_m mrs1); simpl in Hd1; lia. }
  pose proof (Zdigits2_bounds _ Hpos1) as Hb1. rewrite Hd1 in Hb1.
  set (m2 := round_nearest_even (shr_m mrs1) (loc_of_shr_record mrs1)).
  assert (Hm2 : m2 = shr_m mrs1 \/ m2 = (shr_m mrs1 + 1)%Z)
    by apply round_nearest_even_or.
  assert (Hcase : (Zdigits2 m2 = 53 \/ m2 = 2 ^ 53)%Z).
  { destruct (Z.eq_dec m2 (2 ^ 53)%Z) as [E | E]; [right; exact E | left].
    apply Zdigits2_unique; lia. }
  set (n2 := (fexp prec emax (Zdigits2 m2 + e1) - e1)%Z).
  destruct Hcase as [Hd2 | Hm2'].
  - assert (Hn2 : n2 = 0%Z).
    { unfold n2, fexp, SpecFloat.emin, prec, emax. lia. }
    rewrite Hn2. simpl.
    destruct m2 as [| p | p] eqn:Ep; try lia.
    destruct (e1 <=? emax - prec)%Z eqn:Hle; [left | right; reflexivity].
    exists p, e1. split; [reflexivity |].
    simpl. unfold bounded, canonical_mantissa.
    rewrite Hle, andb_true_r. apply Z.eqb_eq.
    change (Z.pos (digits2_pos p)) with (Zdigits2 (Z.pos p)).
    rewrite Hd2. unfold fexp, SpecFloat.emin, prec, emax. lia.
  - assert (Hn2 : n2 = 1%Z).
    { unfold n2. rewrite Hm2'.
      change (Zdigits2 (2 ^ 53)%Z) with 54%Z.
      unfold fexp, SpecFloat.emin, prec, emax. lia. }
    rewrite Hn2, Hm2'. simpl.
    destruct (e1 + 1 <=? emax - prec)%Z eqn:Hle; [left | right; reflexivity].
    eexists _, _. split; [reflexivity |].
    simpl. unfold bounded, canonical_mantissa.
    rewrite Hle, andb_true_r. apply Z.eqb_eq.
    simpl. unfold fexp, SpecFloat.emin, prec, emax. lia.
Qed.

Lemma iter_xO_pow2 (m k : positive) :
  Z.pos (PosDef.Pos.iter xO m k) = (Z.pos m * 2 ^ Z.pos k)%Z.
Proof.
  change (PosDef.Pos.iter xO m k) with (Pos.iter xO m k).
  induction k as [| k IH] using Pos.peano_ind.
  - simpl. lia.
  - rewrite Pos.iter_succ, Pos2Z.inj_xO, IH, Pos2Z.inj_succ, Z.pow_succ_r by lia.
    lia.
Qed.

(** The float nearest to a whole number other than zero is a valid finite
    number, unless the whole number is beyond the range of floats. *)
Lemma binary_normalize_whole (z : Z) :
  z <> 0%Z ->
  (exists s m e,
     binary_normalize prec emax z 0 false = S754_finite s m e
     /\ valid_binary (S754_finite s m e) = true)
  \/ exists s, binary_normalize prec emax z 0 false = S754_infinity s.
Proof.
  intros Hz.
  assert (Hround : forall s p,
    (exists m e, binary_round prec emax s p 0 = S754_finite s m e
                 /\ valid_binary (S754_finite s m e) = true)
    \/ binary_round prec emax s p 0 = S754_infinity s).
  { intros s p. unfold binary_round, shl_align.
    rewrite Z.add_0_r, Z.sub_0_r.
    change (Z.pos (digits2_pos p)) with (Zdigits2 (Z.pos p)).
    assert (Hd : (1 <= Zdigits2 (Z.pos p))%Z) by (simpl; lia).
    assert (Hf : fexp prec emax (Zdigits2 (Z.pos p))
                 = (Zdigits2 (Z.pos p) - 53)%Z)
      by (unfold fexp, SpecFloat.emin, prec, emax; lia).
    rewrite Hf.
    destruct (Zdigits2 (Z.pos p) - 53)%Z as [| d | d] eqn:Hshift.
    - apply binary_round_aux_normal; lia.
    - apply binary_round_aux_normal; lia.
    - apply binary_round_aux_normal.
      + lia.
      + rewrite iter_xO_pow2, Zdigits2_mul_pow2 by lia. lia.
      + lia. }
  destruct z as [| p | p]; [congruence | |]; simpl.
  - destruct (Hround false p) as [(m & e & H & Hv) | H]; eauto 10.
  - destruct (Hround true p) as [(m & e & H & Hv) | H]; eauto 10.
Qed.

Lemma is_nan_Prim2SF (x : float) :
  is_nan x = true <-> Prim2SF x = S754_nan.
Proof.
  unfold is_nan. rewrite FloatAxioms.eqb_spec.
  destruct (Prim2SF x) as [s | s | | s m e]; simpl; unfold SFeqb; simpl.
  - split; discriminate.
  - destruct s; split; discriminate.
  - split; reflexivity.
  - destruct s; rewrite Z.compare_refl, Pos.compare_cont_refl;
      split; discriminate.
Qed.

Lemma Prim2SF_finite (y : float) :
  is_nan y = false -> is_infinity y = false -> (y =? 0)%float = false ->
  exists s m e, Prim2SF y = S754_finite s m e.
Proof.
  intros Hn Hi Hz.
  destruct (Prim2SF y) as [s | s | | s m e] eqn:Hy.
  - rewrite FloatAxioms.eqb_spec, Hy in Hz. vm_compute in Hz. discriminate.
  - unfold is_infinity in Hi. rewrite FloatAxioms.eqb_spec, FloatAxioms.abs_spec, Hy in Hi.
    vm_compute in Hi. discriminate.
  - unfold is_nan in Hn. rewrite FloatAxioms.eqb_spec, Hy in Hn. discriminate.
  - eauto.
Qed.

Lemma Prim2SF_zero (x : float) :
  (x =? 0)%float = true -> exists s, Prim2SF x = S754_zero s.
Proof.
  intros Hz. rewrite FloatAxioms.eqb_spec in Hz.
  change (Prim2SF 0) with (S754_zero false) in Hz.
  destruct (Prim2SF x) as [s | s | | s m e]; try (eauto; fail).
  - destruct s; discriminate.
  - discriminate.
  - destruct s; discriminate.
Qed.

Lemma finite_float (y : float) (s : bool) (m : positive) (e : Z) :
  Prim2SF y = S754_finite s m e ->
  is_nan y = false /\ is_infinity y = false /\ (y =? 0)%float = false.
Proof.
  intros Hy. repeat split.
  - destruct (is_nan y) eqn:E; [| reflexivity].
    apply is_nan_Prim2SF in E. congruence.
  - unfold is_infinity.
    rewrite FloatAxioms.eqb_spec, FloatAxioms.abs_spec, Hy.
    destruct s; reflexivity.
  - rewrite FloatAxioms.eqb_spec, Hy. destruct s; reflexivity.
Qed.

(** [float(z)] of a whole number other than zero is a finite float other
    than zero. *)
Lemma float_of_int_finite (z : Z) (f : float) :
  z <> 0%Z -> float_of_int z = Ok f ->
  exists s m e, Prim2SF f = S754_finite s m e.
Proof.
  intros Hz. unfold float_of_int.
  destruct (binary_normalize_whole z Hz) as [(s & m & e & -> & Hv) | [s ->]];
    [| discriminate].
  intros [= <-]. exists s, m, e. exact (Prim2SF_SF2Prim _ Hv).
Qed.

Lemma float_of_int_nonzero (z : Z) (f : float) :
  z <> 0%Z -> float_of_int z = Ok f -> (f =? 0)%float = false.
Proof.
  intros Hz Hf. destruct (float_of_int_finite z f Hz Hf) as (s & m & e & H).
  apply (finite_float f s m e H).
Qed.

Lemma float_of_int_overflow (z : Z) (e : exn) :
  float_of_int z = Raise e -> e = OverflowError.
Proof.
  unfold float_of_int.
  destruct (binary_normalize prec emax z 0 false); congruence.
Qed.

Lemma int_truediv_raise (a b : Z) (e : exn) :
  b <> 0%Z -> int_truediv a b = Raise e -> e = OverflowError.
Proof.
  intros Hb. unfold int_truediv.
  destruct (Z.eqb_spec b 0) as [E | _]; [congruence |].
  destruct (SF64div (Z2SF a) (Z2SF b)); congruence.
Qed.

Lemma div_eucl_shift (m : positive) :
  Z.div_eucl (Z.shiftl (Zpos m) 53) (Zpos m) = (2 ^ 53, 0)%Z.
Proof.
  rewrite Z.shiftl_mul_pow2 by lia.
  assert (H : forall a b, Z.div_eucl a b = (a / b, a mod b)%Z).
  { intros a b. unfold Z.div, Z.modulo. destruct (Z.div_eucl a b). reflexivity. }
  rewrite H. f_equal.
  - rewrite Z.mul_comm. apply Z.div_mul. lia.
  - rewrite Z.mul_comm. apply Z.mod_mul. lia.
Qed.

(** A finite number divided by itself, signs apart, is exactly one. *)
Lemma SFdiv_opp_self (s : bool) (m : positive) (e : Z) :
  SF64div (S754_finite (negb s) m e) (S754_finite s m e)
  = S754_finite true 4503599627370496 (-52).
Proof.
  unfold SF64div, SFdiv, SFdiv_core_binary.
  rewrite !Z.sub_diag.
  change (Z.min (fexp prec emax 0) 0) with (-53)%Z.
  change (0 - -53)%Z with 53%Z.
  change (IntDef.Z.div_eucl _ (Z.pos m))
    with (Z.div_eucl (Z.shiftl (Z.pos m) 53) (Z.pos m)).
  rewrite div_eucl_shift.
  replace (new_location (Z.pos m) 0) with loc_Exact.
  2:{ unfold new_location, new_location_even, new_location_odd.
      destruct (Z.even (Z.pos m)); reflexivity. }
  destruct s; vm_compute; reflexivity.
Qed.

(** From zero down to a finite [y]: minus one hundred percent, exactly. *)
Lemma zero_minus_over_finite (x y : float) (s : bool) (m : positive) (e : Z) :
  (x =? 0)%float = true -> Prim2SF y = S754_finite s m e ->
  ((x - y) / y * 100)%float = (-100)%float.
Proof.
  intros Hx Hy. destruct (Prim2SF_zero x Hx) as [sx Hsx].
  assert (Hq : ((x - y) / y)%float = (-1)%float).
  { apply Prim2SF_inj. rewrite FloatAxioms.div_spec, FloatAxioms.sub_spec, Hsx, Hy.
    unfold SF64sub, SFsub.
    rewrite SFdiv_opp_self. vm_compute. reflexivity. }
  rewrite Hq. reflexivity.
Qed.

Lemma zero_minus_over_self (x y : float) :
  (x =? 0)%float = true ->
  is_nan y = false -> is_infinity y = false -> (y =? 0)%float = false ->
  ((x - y) / y * 100)%float = (-100)%float.
Proof.
  intros Hx Hn Hi Hz.
  destruct (Prim2SF_finite y Hn Hi Hz) as (s & m & e & Hy).
  exact (zero_minus_over_finite x y s m e Hx Hy).
Qed.

(** A whole number other than zero divides its opposite: minus one. *)
Lemma int_truediv_opp_self (b : Z) :
  b <> 0%Z -> int_truediv (0 - b) b = Ok (-1)%float.
Proof.
  intros Hb. unfold int_truediv.
  destruct (Z.eqb_spec b 0) as [E | _]; [congruence |].
  destruct b as [| p | p]; [congruence | |].
  - change (SF64div (Z2SF (0 - Z.pos p)) (Z2SF (Z.pos p)))
      with (SF64div (S754_finite (negb false) p 0) (S754_finite false p 0)).
    rewrite SFdiv_opp_self. reflexivity.
  - change (SF64div (Z2SF (0 - Z.neg p)) (Z2SF (Z.neg p)))
      with (SF64div (S754_finite (negb true) p 0) (S754_finite true p 0)).
    rewrite SFdiv_opp_self. reflexivity.
Qed.

(** ** One slot *)

(** The [try] statement never lets an exception escape. *)
Lemma growth_slot_total r columns i :
  growth_slot r columns i = (Ok (slot_value r columns i), slot_trace r columns i).
Proof.
  unfold slot_value, slot_trace, growth_slot, try_except, result, trace.
  destruct (slot_body r columns i) as [[v | e] t]; simpl.
  - reflexivity.
  - reflexivity.
Qed.

Lemma slot_body_endpoints r columns i ci cp c p :
  columns !! i = Some ci -> columns !! (i - 1) = Some cp ->
  r !! ci = Some c -> r !! cp = Some p ->
  slot_body r columns i = growth_of_values c p.
Proof.
  intros Hci Hcp Hc Hp. unfold slot_body, column_at, getitem.
  rewrite Hci, bind_ret_l, Hc, bind_ret_l, Hcp, bind_ret_l, Hp, bind_ret_l.
  reflexivity.
Qed.

Lemma growth_of_values_guarded c p :
  isna c || isna p || eq_zero p = true ->
  growth_of_values c p = (Ok None, []).
Proof. intros H. unfold growth_of_values. rewrite H. reflexivity. Qed.

Lemma growth_of_values_text c p :
  isna c || isna p || eq_zero p = false ->
  not_a_number c || not_a_number p = true ->
  growth_of_values c p = (Raise TypeError, []).
Proof.
  intros Hg Hn. unfold growth_of_values. rewrite Hg.
  destruct c as [a | x | s], p as [b | y | s']; simpl in *;
    try reflexivity; try discriminate; exfalso.
  - apply orb_false_iff in Hg as [Hg _]. congruence.
  - rewrite orb_false_r in Hg, Hn.
    apply orb_false_iff in Hg as [Hg _]. congruence.
  - apply orb_false_iff in Hg as [Hg _]. congruence.
Qed.

Lemma growth_of_values_numbers x y :
  is_nan x || is_nan y || (y =? 0)%float = false ->
  growth_of_values (Num x) (Num y)
  = (Ok (Some ((x - y) / y * 100)%float), [Div (PyFloat (x - y)%float) (PyFloat y)]).
Proof.
  intros Hg. unfold growth_of_values. simpl. rewrite Hg.
  apply orb_false_iff in Hg as [_ Hz].
  unfold py_sub, py_truediv, py_mul100, number_of, as_float, float_truediv,
    lift, tell, ret, bind.
  rewrite Hz. reflexivity.
Qed.

Lemma growth_of_values_ints (a b : Z) :
  b <> 0%Z ->
  growth_of_values (Int a) (Int b)
  = match int_truediv (a - b) b with
    | Ok q => (Ok (Some (q * 100)%float), [Div (PyInt (a - b)) (PyInt b)])
    | Raise e => (Raise e, [])
    end.
Proof.
  intros Hb. unfold growth_of_values. simpl.
  destruct (Z.eqb_spec b 0) as [E | _]; [congruence |].
  unfold py_sub, py_truediv, py_mul100, number_of, lift, tell, ret, bind.
  destruct (int_truediv (a - b) b); reflexivity.
Qed.

Lemma growth_of_values_int_float (a : Z) (y : float) :
  is_nan y = false -> (y =? 0)%float = false ->
  growth_of_values (Int a) (Num y)
  = match float_of_int a with
    | Ok fa =>
        (Ok (Some ((fa - y) / y * 100)%float), [Div (PyFloat (fa - y)%float) (PyFloat y)])
    | Raise e => (Raise e, [])
    end.
Proof.
  intros Hn Hz. unfold growth_of_values. simpl. rewrite Hn, Hz. simpl.
  unfold py_sub, py_truediv, py_mul100, number_of, as_float, float_truediv,
    lift, tell, ret, bind.
  destruct (float_of_int a); [| reflexivity].
  rewrite Hz. reflexivity.
Qed.

Lemma growth_of_values_float_int (x : float) (b : Z) :
  is_nan x = false -> b <> 0%Z ->
  growth_of_values (Num x) (Int b)
  = match float_of_int b with
    | Ok fb =>
        (Ok (Some ((x - fb) / fb * 100)%float), [Div (PyFloat (x - fb)%float) (PyInt b)])
    | Raise e => (Raise e, [])
    end.
Proof.
  intros Hn Hb. unfold growth_of_values. simpl. rewrite Hn. simpl.
  destruct (Z.eqb_spec b 0) as [E | _]; [congruence |].
  unfold py_sub, py_truediv, py_mul100, number_of, as_float, float_truediv,
    lift, tell, ret, bind.
  destruct (float_of_int b) as [fb | e] eqn:Hfb; [| reflexivity].
  rewrite (float_of_int_nonzero b fb Hb Hfb). reflexivity.
Qed.

(** What a slot comes to once both cells are at hand: [None] without a
    division, an exception other than [ZeroDivisionError] without a
    division, or a number after one division by a divisor other than
    zero. *)
Lemma growth_of_values_outcome c p :
  growth_of_values c p = (Ok None, [])
  \/ (exists e, e <> ZeroDivisionError /\ growth_of_values c p = (Raise e, []))
  \/ (exists v d, growth_of_values c p = (Ok (Some v), [d])
                  /\ sound_division d).
Proof.
  destruct (isna c || isna p || eq_zero p) eqn:Hg.
  { left. apply growth_of_values_guarded, Hg. }
  right.
  destruct (not_a_number c || not_a_number p) eqn:Hn.
  { left. exists TypeError. split; [discriminate |].
    apply growth_of_values_text; assumption. }
  destruct c as [a | x | s], p as [b | y | s']; simpl in Hg, Hn;
    try discriminate; try (rewrite orb_true_r in Hn; discriminate).
  - assert (Hb : b <> 0%Z) by (intros ->; discriminate).
    rewrite (growth_of_values_ints a b Hb).
    destruct (int_truediv (a - b) b) as [q | e] eqn:Hq.
    + right. do 2 eexists. split; [reflexivity | exact Hb].
    + left. exists e. split; [| reflexivity].
      rewrite (int_truediv_raise _ _ _ Hb Hq). discriminate.
  - apply orb_false_iff in Hg as [Hy Hz].
    rewrite (growth_of_values_int_float a y Hy Hz).
    destruct (float_of_int a) as [fa | e] eqn:Hfa.
    + right. do 2 eexists. split; [reflexivity | split; assumption].
    + left. exists e. split; [| reflexivity].
      rewrite (float_of_int_overflow _ _ Hfa). discriminate.
  - rewrite orb_false_r in Hg.
    assert (Hb : b <> 0%Z) by (intros ->; rewrite orb_true_r in Hg; discriminate).
    apply orb_false_iff in Hg as [Hx _].
    rewrite (growth_of_values_float_int x b Hx Hb).
    destruct (float_of_int b) as [fb | e] eqn:Hfb.
    + right. do 2 eexists. split; [reflexivity | exact Hb].
    + left. exists e. split; [| reflexivity].
      rewrite (float_of_int_overflow _ _ Hfb). discriminate.
  - rewrite (growth_of_values_numbers x y Hg).
    apply orb_false_iff in Hg as [Hg Hz]. apply orb_false_iff in Hg as [_ Hy].
    right. do 2 eexists. split; [reflexivity | split; assumption].
Qed.

Lemma growth_of_values_trace c p :
  Forall sound_division (trace (growth_of_values c p)).
Proof.
  destruct (growth_of_values_outcome c p)
    as [-> | [(e & _ & ->) | (v & d & -> & Hd)]]; repeat constructor.
  exact Hd.
Qed.

(** The guard comes before the division: Python never meets a zero
    divisor. *)
Lemma growth_of_values_no_zero_division c p :
  result (growth_of_values c p) <> Raise ZeroDivisionError.
Proof.
  destruct (growth_of_values_outcome c p)
    as [-> | [(e & He & ->) | (v & d & -> & _)]]; simpl; congruence.
Qed.

Lemma slot_body_no_zero_division r columns i :
  result (slot_body r columns i) <> Raise ZeroDivisionError.
Proof.
  unfold slot_body, column_at, getitem.
  destruct (columns !! i) as [ci |]; [| discriminate].
  rewrite bind_ret_l.
  destruct (r !! ci) as [c |]; [| discriminate].
  rewrite bind_ret_l.
  destruct (columns !! (i - 1)) as [cp |]; [| discriminate].
  rewrite bind_ret_l.
  destruct (r !! cp) as [p |]; [| discriminate].
  rewrite bind_ret_l. apply growth_of_values_no_zero_division.
Qed.

Lemma slot_body_trace r columns i :
  Forall sound_division (trace (slot_body r columns i)).
Proof.
  unfold slot_body, column_at, getitem.
  destruct (columns !! i) as [ci |]; [| constructor].
  rewrite bind_ret_l.
  destruct (r !! ci) as [c |]; [| constructor].
  rewrite bind_ret_l.
  destruct (columns !! (i - 1)) as [cp |]; [| constructor].
  rewrite bind_ret_l.
  destruct (r !! cp) as [p |]; [| constructor].
  rewrite bind_ret_l. apply growth_of_values_trace.
Qed.

Lemma slot_trace_sound r columns i :
  Forall sound_division (slot_trace r columns i).
Proof.
  unfold slot_trace, growth_slot, try_except.
  pose proof (slot_body_trace r columns i) as H.
  destruct (slot_body r columns i) as [[v | e] t]; simpl in *.
  - exact H.
  - rewrite app_nil_r. exact H.
Qed.

(** ** The loops of the growth calculator *)

Lemma growth_loop_eq r columns idx :
  growth_loop r columns idx
  = (Ok (map (slot_value r columns) idx),
     concat (map (slot_trace r columns) idx)).
Proof.
  induction idx as [| i idx IH]; simpl.
  - reflexivity.
  - rewrite growth_slot_total, bind_ok. cbv beta.
    rewrite IH, bind_ok. unfold result, trace, ret. simpl.
    rewrite app_nil_r. reflexivity.
Qed.

Lemma metric_growth_eq r m :
  metric_growth r m
  = (Ok (rates r m, np_mean (defined_slots (rates r m))), metric_trace r m).
Proof.
  unfold metric_growth. rewrite growth_loop_eq, bind_ok.
  unfold result, trace, ret, rates, metric_trace. simpl.
  rewrite app_nil_r. reflexivity.
Qed.

Lemma company_growth_of_eq r ticker name sector :
  r !! "Exchange:Ticker" = Some ticker ->
  r !! "Company Name" = Some name ->
  r !! "Sector" = Some sector ->
  company_growth_of r = (Ok (growth_record r ticker name sector), row_trace r).
Proof.
  intros Ht Hn Hs. unfold company_growth_of, getitem.
  rewrite Ht, bind_ret_l, Hn, bind_ret_l, Hs, bind_ret_l.
  do 3 (rewrite ?metric_growth_eq, ?bind_ok; cbv beta).
  unfold result, trace, ret, row_trace, growth_record. simpl.
  rewrite app_nil_r. reflexivity.
Qed.

Lemma company_growth_of_inv r g :
  result (company_growth_of r) = Ok g -> record_of r g.
Proof.
  intros H. unfold record_of.
  destruct (r !! "Exchange:Ticker") as [t |] eqn:Ht.
  2:{ unfold company_growth_of, getitem in H. rewrite Ht in H. discriminate. }
  destruct (r !! "Company Name") as [n |] eqn:Hn.
  2:{ unfold company_growth_of, getitem in H.
      rewrite Ht, bind_ret_l, Hn in H. discriminate. }
  destruct (r !! "Sector") as [s |] eqn:Hs.
  2:{ unfold company_growth_of, getitem in H.
      rewrite Ht, bind_ret_l, Hn, bind_ret_l, Hs in H. discriminate. }
  rewrite (company_growth_of_eq r t n s Ht Hn Hs) in H.
  simpl in H. injection H as <-. eauto 10.
Qed.

Lemma metric_trace_sound r m : Forall sound_division (metric_trace r m).
Proof.
  unfold metric_trace. apply Forall_concat, Forall_map, Forall_forall.
  intros i _. apply slot_trace_sound.
Qed.

Lemma row_trace_sound r : Forall sound_division (row_trace r).
Proof.
  unfold row_trace. rewrite !Forall_app.
  repeat split; apply metric_trace_sound.
Qed.

Lemma company_growth_of_trace r :
  Forall sound_division (trace (company_growth_of r)).
Proof.
  destruct (r !! "Exchange:Ticker") as [t |] eqn:Ht.
  2:{ unfold company_growth_of, getitem. rewrite Ht. constructor. }
  destruct (r !! "Company Name") as [n |] eqn:Hn.
  2:{ unfold company_growth_of, getitem. rewrite Ht, bind_ret_l, Hn. constructor. }
  destruct (r !! "Sector") as [s |] eqn:Hs.
  2:{ unfold company_growth_of, getitem.
      rewrite Ht, bind_ret_l, Hn, bind_ret_l, Hs. constructor. }
  rewrite (company_growth_of_eq r t n s Ht Hn Hs). apply row_trace_sound.
Qed.

Lemma calculate_growth_rates_inv df gs :
  result (calculate_growth_rates df) = Ok gs -> Forall2 record_of df gs.
Proof.
  revert gs. induction df as [| r df IH]; intros gs H; simpl in H.
  - injection H as <-. constructor.
  - destruct (company_growth_of r) as [[g | e] t] eqn:Hg; [| discriminate].
    rewrite bind_ok in H. cbv beta in H.
    destruct (calculate_growth_rates df) as [[gs' | e] t'] eqn:Hgs;
      [| discriminate].
    rewrite bind_ok in H. simpl in H. injection H as <-.
    constructor.
    + apply company_growth_of_inv. rewrite Hg. reflexivity.
    + apply IH. reflexivity.
Qed.

Lemma calculate_growth_rates_total df :
  Forall identified df -> exists gs, result (calculate_growth_rates df) = Ok gs.
Proof.
  induction 1 as [| r df Hid _ IH]; simpl.
  - eexists. reflexivity.
  - destruct Hid as ([t Ht] & [n Hn] & [s Hs]). destruct IH as [gs IH].
    rewrite (company_growth_of_eq r t n s Ht Hn Hs), bind_ok. cbv beta.
    rewrite (M_eta (calculate_growth_rates df)), IH, bind_ok. simpl.
    eexists. reflexivity.
Qed.

Lemma calculate_growth_rates_trace df :
  Forall sound_division (trace (calculate_growth_rates df)).
Proof.
  induction df as [| r df IH]; simpl.
  - constructor.
  - pose proof (company_growth_of_trace r) as Hr.
    destruct (company_growth_of r) as [[g | e] t]; simpl in Hr.
    + rewrite bind_ok. cbv beta. simpl. apply Forall_app. split; [exact Hr |].
      destruct (calculate_growth_rates df) as [[gs | e] t'];
        simpl in *.
      * rewrite app_nil_r. exact IH.
      * exact IH.
    + exact Hr.
Qed.

(** ** The records of the growth table *)

Lemma Growth_Rates_record m r t n s :
  Growth_Rates m (growth_record r t n s) = rates r m.
Proof. destruct m; reflexivity. Qed.

Lemma Avg_Growth_record m r t n s :
  Avg_Growth m (growth_record r t n s) = np_mean (defined_slots (rates r m)).
Proof. destruct m; reflexivity. Qed.

Lemma rates_lookup r m i :
  1 <= i <= 4 ->
  rates r m !! (i - 1) = Some (slot_value r (columns_of m) i).
Proof.
  intros Hi.
  assert (i = 1 \/ i = 2 \/ i = 3 \/ i = 4) as [-> | [-> | [-> | ->]]] by lia;
    destruct m; reflexivity.
Qed.

Lemma rates_length r m : length (rates r m) = 4.
Proof. destruct m; reflexivity. Qed.

(** The record at position [k] of the growth table is the record of the
    row at position [k] of the input. *)
Lemma growth_table_lookup df gs k r g :
  result (calculate_growth_rates df) = Ok gs ->
  df !! k = Some r -> gs !! k = Some g -> record_of r g.
Proof.
  intros H Hr Hg. apply calculate_growth_rates_inv in H.
  destruct (Forall2_lookup_l _ _ _ _ _ H Hr) as (g' & Hg' & Hrec).
  rewrite Hg in Hg'. injection Hg' as <-. exact Hrec.
Qed.

Lemma growth_table_slot df gs k r g m i :
  result (calculate_growth_rates df) = Ok gs ->
  df !! k = Some r -> gs !! k = Some g -> 1 <= i <= 4 ->
  Growth_Rates m g !! (i - 1) = Some (slot_value r (columns_of m) i).
Proof.
  intros H Hr Hg Hi.
  destruct (growth_table_lookup _ _ _ _ _ H Hr Hg) as (t & n & s & _ & _ & _ & ->).
  rewrite Growth_Rates_record. apply rates_lookup, Hi.
Qed.

Lemma slot_of_values r columns i ci cp c p :
  columns !! i = Some ci -> columns !! (i - 1) = Some cp ->
  r !! ci = Some c -> r !! cp = Some p ->
  growth_slot r columns i
  = try_except (growth_of_values c p) (ret None).
Proof.
  intros Hci Hcp Hc Hp. unfold growth_slot.
  rewrite (slot_body_endpoints _ _ _ _ _ _ _ Hci Hcp Hc Hp). reflexivity.
Qed.

Lemma slot_value_of_values r columns i ci cp c p :
  columns !! i = Some ci -> columns !! (i - 1) = Some cp ->
  r !! ci = Some c -> r !! cp = Some p ->
  slot_value r columns i
  = match result (growth_of_values c p) with Ok v => v | Raise _ => None end
  /\ slot_trace r columns i = trace (growth_of_values c p).
Proof.
  intros Hci Hcp Hc Hp. unfold slot_value, slot_trace.
  rewrite (slot_of_values _ _ _ _ _ _ _ Hci Hcp Hc Hp).
  destruct (growth_of_values c p) as [[v | e] t]; simpl.
  - split; reflexivity.
  - split; [reflexivity | apply app_nil_r].
Qed.

Lemma growth_table_length df gs :
  result (calculate_growth_rates df) = Ok gs -> length gs = length df.
Proof.
  intros H. symmetry. eapply Forall2_length, calculate_growth_rates_inv, H.
Qed.

Lemma identified_whole_sheet : Forall identified whole_sheet.
Proof. repeat constructor; eexists; vm_compute; reflexivity. Qed.

(** C1. The growth table has a record for every row.  For every row,
    metric and consecutive snapshot pair whose two cells exist: when
    either cell holds no number (empty, NaN or text) or the prior value is
    zero, the slot is [None] and the slot performs no division; when both
    hold numbers and the prior one is not zero, the slot is
    [(current - previous) / previous * 100] in Python's arithmetic: in
    binary64 on two floats; on two whole numbers the exact difference,
    divided with one rounding; on a whole number and a float with the
    whole number converted first.  Where that arithmetic overflows the
    slot is [None].  No division of the whole calculation has a NaN or
    zero divisor, and no slot ever raises [ZeroDivisionError]. *)
Theorem growth_slot_policy (df : list row) :
  Forall identified df ->
  exists gs,
  result (calculate_growth_rates df) = Ok gs /\
  length gs = length df /\
  (forall k r g m i ci cp c p,
      df !! k = Some r -> gs !! k = Some g ->
      1 <= i <= 4 ->
      columns_of m !! i = Some ci -> columns_of m !! (i - 1) = Some cp ->
      r !! ci = Some c -> r !! cp = Some p ->
      (not_a_number c || not_a_number p || eq_zero p = true ->
       Growth_Rates m g !! (i - 1) = Some None
       /\ slot_trace r (columns_of m) i = [])
      /\
      (forall x y, c = Num x -> p = Num y ->
       is_nan x || is_nan y || (y =? 0)%float = false ->
       Growth_Rates m g !! (i - 1) = Some (Some ((x - y) / y * 100)%float)
       /\ slot_trace r (columns_of m) i = [Div (PyFloat (x - y)%float) (PyFloat y)])
      /\
      (forall a b, c = Int a -> p = Int b -> b <> 0%Z ->
       Growth_Rates m g !! (i - 1) = Some (percent (int_truediv (a - b) b)))
      /\
      (forall a y, c = Int a -> p = Num y ->
       is_nan y || (y =? 0)%float = false ->
       Growth_Rates m g !! (i - 1)
       = Some match float_of_int a with
              | Ok fa => Some ((fa - y) / y * 100)%float
              | Raise _ => None
              end)
      /\
      (forall x b, c = Num x -> p = Int b ->
       is_nan x = false -> b <> 0%Z ->
       Growth_Rates m g !! (i - 1)
       = Some match float_of_int b with
              | Ok fb => Some ((x - fb) / fb * 100)%float
              | Raise _ => None
              end))
  /\ Forall sound_division (trace (calculate_growth_rates df))
  /\ (forall r m i,
        result (slot_body r (columns_of m) i) <> Raise ZeroDivisionError).
Proof.
  intros Hid. destruct (calculate_growth_rates_total df Hid) as [gs H].
  exists gs. split; [exact H |].
  split; [apply growth_table_length, H |].
  split;
    [| split; [apply calculate_growth_rates_trace
              | intros r m i; apply slot_body_no_zero_division]].
  intros k r g m i ci cp c p Hr Hg Hi Hci Hcp Hc Hp.
  rewrite (growth_table_slot _ _ _ _ _ m i H Hr Hg Hi).
  destruct (slot_value_of_values _ _ _ _ _ _ _ Hci Hcp Hc Hp) as [-> ->].
  split; [| split; [| split; [| split]]].
  - intros Hbad.
    destruct (isna c || isna p || eq_zero p) eqn:Hguard.
    + rewrite (growth_of_values_guarded _ _ Hguard). split; reflexivity.
    + rewrite (growth_of_values_text c p Hguard); [split; reflexivity |].
      apply orb_true_iff in Hbad as [Hbad | Hz]; [exact Hbad |].
      apply orb_false_iff in Hguard as [_ Hz']. congruence.
  - intros x y -> -> Hguard.
    rewrite (growth_of_values_numbers _ _ Hguard). split; reflexivity.
  - intros a b -> -> Hb. rewrite (growth_of_values_ints a b Hb).
    destruct (int_truediv (a - b) b); reflexivity.
  - intros a y -> -> Hguard. apply orb_false_iff in Hguard as [Hy Hz].
    rewrite (growth_of_values_int_float a y Hy Hz).
    destruct (float_of_int a); reflexivity.
  - intros x b -> -> Hx Hb. rewrite (growth_of_values_float_int x b Hx Hb).
    destruct (float_of_int b); reflexivity.
Qed.

(** Company C, whose first two revenue figures are whole numbers that
    binary64 cannot subtract without rounding. *)
Lemma growth_slot_policy_witness :
  Forall identified whole_sheet
  /\ exists gs g,
       result (calculate_growth_rates whole_sheet) = Ok gs
       /\ length gs = 2
       /\ gs !! 0 = Some g
       /\ Growth_Rates Total_Revenue g !! 0
          = Some (Some (-171.62110214780762)%float)
       /\ Growth_Rates Total_Revenue g !! 2 = Some None.
Proof.
  assert (Hid : Forall identified whole_sheet)
    by (repeat constructor; eexists; vm_compute; reflexivity).
  split; [exact Hid |].
  destruct (growth_slot_policy whole_sheet Hid)
    as (gs & H & Hlen & Hslots & _).
  destruct (lookup_lt_is_Some_2 gs 0) as [g Hg]; [rewrite Hlen; simpl; lia |].
  exists gs, g. split; [exact H |]. split; [exact Hlen |].
  split; [exact Hg |]. split.
  - destruct (Hslots 0 (join_row company_C (Text "C", Text "Tech")) g
                Total_Revenue 1
                "Total Revenue [LTM - 12]" "Total Revenue [LTM - 16]"
                (Int 4219827586217624) (Int (-5891877476988529)))
      as (_ & _ & Hints & _).
    + reflexivity.
    + exact Hg.
    + lia.
    + reflexivity.
    + reflexivity.
    + vm_compute. reflexivity.
    + vm_compute. reflexivity.
    + refine (eq_trans (Hints _ _ eq_refl eq_refl _) _);
        [discriminate | vm_compute; reflexivity].
  - destruct (Hslots 0 (join_row company_C (Text "C", Text "Tech")) g
                Total_Revenue 3
                "Total Revenue [LTM - 4]" "Total Revenue [LTM - 8]"
                (Int 50) (Int 0))
      as (Hguard & _).
    + reflexivity.
    + exact Hg.
    + lia.
    + reflexivity.
    + reflexivity.
    + vm_compute. reflexivity.
    + vm_compute. reflexivity.
    + apply Hguard. reflexivity.
Defined.

(** C2. The growth table has a record for every row, and in every record
    the average growth of a metric is the sum of its defined slots divided
    by their number; with all four slots undefined it is NaN, and so not
    zero. *)
Theorem average_of_defined_slots (df : list row) :
  Forall identified df ->
  exists gs,
  result (calculate_growth_rates df) = Ok gs /\
  length gs = length df /\
  forall k g m, gs !! k = Some g ->
    let defined := defined_slots (Growth_Rates m g) in
    Avg_Growth m g
    = (fold_left PrimFloat.add defined 0 / float_of_nat (length defined))%float
    /\ (forall x, In x defined <-> In (Some x) (Growth_Rates m g))
    /\ (Growth_Rates m g = [None; None; None; None] ->
        is_nan (Avg_Growth m g) = true /\ (Avg_Growth m g =? 0)%float = false).
Proof.
  intros Hid. destruct (calculate_growth_rates_total df Hid) as [gs H].
  exists gs. split; [exact H |].
  split; [apply growth_table_length, H |].
  intros k g m Hg defined. subst defined.
  apply calculate_growth_rates_inv in H.
  destruct (Forall2_lookup_r _ _ _ _ _ H Hg) as (r & _ & t & n & s & _ & _ & _ & ->).
  rewrite Growth_Rates_record, Avg_Growth_record.
  split; [reflexivity |]. split.
  - intros x. unfold defined_slots.
    rewrite <- !list_elem_of_In, list_elem_of_omap. split.
    + intros ([y |] & Hy & Heq); simpl in Heq; [| discriminate].
      injection Heq as ->. exact Hy.
    + intros Hx. exists (Some x). split; [exact Hx | reflexivity].
  - intros ->. split; reflexivity.
Qed.

(** The average revenue growth of company B. *)
Lemma average_of_defined_slots_witness :
  Forall identified joined_sheet
  /\ exists gs g,
       result (calculate_growth_rates joined_sheet) = Ok gs
       /\ length gs = 3
       /\ gs !! 1 = Some g
       /\ Avg_Growth Total_Revenue g
          = (fold_left PrimFloat.add
               (defined_slots (Growth_Rates Total_Revenue g)) 0
             / float_of_nat
                 (length (defined_slots (Growth_Rates Total_Revenue g))))%float.
Proof.
  assert (Hid : Forall identified joined_sheet)
    by (repeat constructor; eexists; vm_compute; reflexivity).
  split; [exact Hid |].
  destruct (average_of_defined_slots joined_sheet Hid) as (gs & H & Hlen & Havg).
  destruct (lookup_lt_is_Some_2 gs 1) as [g Hg]; [rewrite Hlen; simpl; lia |].
  exists gs, g. split; [exact H |]. split; [exact Hlen |].
  split; [exact Hg |].
  exact (proj1 (Havg 1 g Total_Revenue Hg)).
Defined.

(** C9, as stated, fails: the net income of company D falls to zero from
    an infinite figure, a prior value that is defined and not zero, and
    the slot holds NaN. *)
Lemma infinite_prior_gives_nan :
  Forall identified whole_sheet
  /\ join_row company_D (Text "D", Text "Energy") !! "Net Income [LTM - 16]"
     = Some (Num infinity)
  /\ join_row company_D (Text "D", Text "Energy") !! "Net Income [LTM - 12]"
     = Some (Num 0)
  /\ exists gs g v,
       result (calculate_growth_rates whole_sheet) = Ok gs
       /\ whole_sheet !! 1 = Some (join_row company_D (Text "D", Text "Energy"))
       /\ gs !! 1 = Some g
       /\ Growth_Rates Net_Income g !! 0 = Some (Some v)
       /\ is_nan v = true
       /\ (v =? -100)%float = false.
Proof.
  split; [exact identified_whole_sheet |].
  assert (Hp : join_row company_D (Text "D", Text "Energy")
                 !! "Net Income [LTM - 16]" = Some (Num infinity))
    by (vm_compute; reflexivity).
  assert (Hc : join_row company_D (Text "D", Text "Energy")
                 !! "Net Income [LTM - 12]" = Some (Num 0))
    by (vm_compute; reflexivity).
  split; [exact Hp |]. split; [exact Hc |].
  destruct (calculate_growth_rates_total _ identified_whole_sheet) as [gs H].
  destruct (lookup_lt_is_Some_2 gs 1) as [g Hg].
  { rewrite (growth_table_length _ _ H). simpl. lia. }
  exists gs, g, ((0 - infinity) / infinity * 100)%float.
  split; [exact H |]. split; [reflexivity |]. split; [exact Hg |].
  split; [| split; reflexivity].
  refine (eq_trans (growth_table_slot _ _ 1 _ g Net_Income 1 H eq_refl Hg
                      ltac:(lia)) _).
  destruct (slot_value_of_values _ (columns_of Net_Income) 1 _ _ _ _
              eq_refl eq_refl Hc Hp) as [-> _].
  rewrite growth_of_values_numbers by reflexivity. reflexivity.
Qed.

(** C9, amended. When the current value is zero and the prior value is a
    number other than zero within the finite range of floats, the slot is
    a number, not [None], and that number is -100. *)
Theorem drop_to_zero_is_minus_100 (df : list row) :
  Forall identified df ->
  exists gs,
  result (calculate_growth_rates df) = Ok gs /\
  length gs = length df /\
  forall k r g m i ci cp c p,
    df !! k = Some r -> gs !! k = Some g ->
    1 <= i <= 4 ->
    columns_of m !! i = Some ci -> columns_of m !! (i - 1) = Some cp ->
    r !! ci = Some c -> r !! cp = Some p ->
    eq_zero c = true -> finite_nonzero p = true ->
    Growth_Rates m g !! (i - 1) = Some (Some (-100)%float).
Proof.
  intros Hid. destruct (calculate_growth_rates_total df Hid) as [gs H].
  exists gs. split; [exact H |].
  split; [apply growth_table_length, H |].
  intros k r g m i ci cp c p Hr Hg Hi Hci Hcp Hc Hp Hzero Hfin.
  rewrite (growth_table_slot _ _ _ _ _ m i H Hr Hg Hi).
  destruct (slot_value_of_values _ _ _ _ _ _ _ Hci Hcp Hc Hp) as [-> _].
  f_equal.
  destruct c as [a | x | s]; simpl in Hzero; [| | discriminate];
    destruct p as [b | y | s']; simpl in Hfin; try discriminate.
  - apply Z.eqb_eq in Hzero as ->.
    apply andb_true_iff in Hfin as [Hb _]. apply negb_true_iff in Hb.
    assert (Hb' : b <> 0%Z) by (intros ->; discriminate).
    rewrite (growth_of_values_ints 0 b Hb'), (int_truediv_opp_self b Hb').
    reflexivity.
  - apply Z.eqb_eq in Hzero as ->.
    apply andb_true_iff in Hfin as [Hfin Hz].
    apply andb_true_iff in Hfin as [Hn Hi'].
    apply negb_true_iff in Hn, Hi', Hz.
    rewrite (growth_of_values_int_float 0 y Hn Hz).
    change (float_of_int 0) with (Ok 0%float). simpl.
    rewrite (zero_minus_over_self 0 y eq_refl Hn Hi' Hz). reflexivity.
  - apply andb_true_iff in Hfin as [Hb Hconv]. apply negb_true_iff in Hb.
    assert (Hb' : b <> 0%Z) by (intros ->; discriminate).
    assert (Hx : is_nan x = false).
    { destruct (is_nan x) eqn:E; [| reflexivity].
      apply is_nan_Prim2SF in E. rewrite FloatAxioms.eqb_spec, E in Hzero.
      discriminate. }
    rewrite (growth_of_values_float_int x b Hx Hb').
    destruct (float_of_int b) as [fb | e] eqn:Hfb; [| discriminate].
    destruct (float_of_int_finite b fb Hb' Hfb) as (s & m0 & e & Hsf).
    simpl. rewrite (zero_minus_over_finite x fb s m0 e Hzero Hsf). reflexivity.
  - apply andb_true_iff in Hfin as [Hfin Hz].
    apply andb_true_iff in Hfin as [Hn Hi'].
    apply negb_true_iff in Hn, Hi', Hz.
    assert (Hx : is_nan x = false).
    { destruct (is_nan x) eqn:E; [| reflexivity].
      apply is_nan_Prim2SF in E. rewrite FloatAxioms.eqb_spec, E in Hzero.
      discriminate. }
    rewrite growth_of_values_numbers by (rewrite Hx, Hn, Hz; reflexivity).
    simpl. rewrite (zero_minus_over_self x y Hzero Hn Hi' Hz). reflexivity.
Qed.

(** The net income of company C falls from 5 to 0. *)
Lemma drop_to_zero_is_minus_100_witness :
  Forall identified whole_sheet
  /\ exists gs g,
       result (calculate_growth_rates whole_sheet) = Ok gs
       /\ length gs = 2
       /\ gs !! 0 = Some g
       /\ Growth_Rates Net_Income g !! 0 = Some (Some (-100)%float).
Proof.
  assert (Hid : Forall identified whole_sheet)
    by (repeat constructor; eexists; vm_compute; reflexivity).
  split; [exact Hid |].
  destruct (drop_to_zero_is_minus_100 whole_sheet Hid)
    as (gs & H & Hlen & Hdrop).
  destruct (lookup_lt_is_Some_2 gs 0) as [g Hg]; [rewrite Hlen; simpl; lia |].
  exists gs, g. split; [exact H |]. split; [exact Hlen |].
  split; [exact Hg |].
  apply (Hdrop 0 (join_row company_C (Text "C", Text "Tech")) g
           Net_Income 1 "Net Income [LTM - 12]" "Net Income [LTM - 16]"
           (Int 0) (Int 5)).
  - reflexivity.
  - exact Hg.
  - lia.
  - reflexivity.
  - reflexivity.
  - vm_compute. reflexivity.
  - vm_compute. reflexivity.
  - reflexivity.
  - vm_compute. reflexivity.
Defined.

(** ** Faults inside one slot *)

Lemma slot_body_lookup r columns i :
  slot_body r columns i
  = match columns !! i with
    | None => raise IndexError
    | Some ci =>
        match r !! ci with
        | None => raise KeyError
        | Some c =>
            match columns !! (i - 1) with
            | None => raise IndexError
            | Some cp =>
                match r !! cp with
                | None => raise KeyError
                | Some p => growth_of_values c p
                end
            end
        end
    end.
Proof.
  unfold slot_body, column_at, getitem.
  destruct (columns !! i) as [ci |]; [| reflexivity]. rewrite bind_ret_l.
  destruct (r !! ci) as [c |]; [| reflexivity]. rewrite bind_ret_l.
  destruct (columns !! (i - 1)) as [cp |]; [| reflexivity]. rewrite bind_ret_l.
  destruct (r !! cp) as [p |]; [| reflexivity]. rewrite bind_ret_l.
  reflexivity.
Qed.

(** A slot reads its two endpoint cells and nothing else. *)
Lemma slot_value_agree (r r' : row) columns i ci cp :
  columns !! i = Some ci -> columns !! (i - 1) = Some cp ->
  r' !! ci = r !! ci -> r' !! cp = r !! cp ->
  slot_value r' columns i = slot_value r columns i.
Proof.
  intros Hci Hcp Hc Hp. unfold slot_value, growth_slot.
  rewrite !slot_body_lookup, Hci, Hcp, Hc, Hp. reflexivity.
Qed.

Lemma slot_value_fault r columns i e :
  result (slot_body r columns i) = Raise e -> slot_value r columns i = None.
Proof.
  intros H. unfold slot_value, growth_slot, try_except.
  destruct (slot_body r columns i) as [[v | e'] t]; simpl in *.
  - discriminate.
  - reflexivity.
Qed.

Lemma slot_value_missing (r : row) columns i ci cp :
  columns !! i = Some ci -> columns !! (i - 1) = Some cp ->
  r !! ci = None \/ r !! cp = None ->
  slot_value r columns i = None.
Proof.
  intros Hci Hcp Hmiss. apply (slot_value_fault _ _ _ KeyError).
  rewrite slot_body_lookup, Hci, Hcp.
  destruct Hmiss as [-> | Hp]; [reflexivity |].
  destruct (r !! ci); [rewrite Hp |]; reflexivity.
Qed.

(** C6. Whatever the snapshot columns hold, the calculation of a table
    whose rows carry the three identity columns returns a table.  A slot
    whose extraction raises, for instance because an endpoint column is
    missing from the row, is [None]; and every slot is determined by its
    own two endpoint cells alone, so that a fault elsewhere in the row, in
    another metric or in another row leaves it as it would be without the
    fault. *)
Theorem slot_fault_is_isolated (df : list row) :
  Forall identified df ->
  exists gs,
    result (calculate_growth_rates df) = Ok gs /\
    length gs = length df /\
    forall k r g m i ci cp,
      df !! k = Some r -> gs !! k = Some g ->
      1 <= i <= 4 ->
      columns_of m !! i = Some ci -> columns_of m !! (i - 1) = Some cp ->
      (forall e, result (slot_body r (columns_of m) i) = Raise e ->
                 Growth_Rates m g !! (i - 1) = Some None)
      /\ (r !! ci = None \/ r !! cp = None ->
          Growth_Rates m g !! (i - 1) = Some None)
      /\ (forall r' : row, r' !! ci = r !! ci -> r' !! cp = r !! cp ->
          Growth_Rates m g !! (i - 1)
          = Some (slot_value r' (columns_of m) i)).
Proof.
  intros Hid. destruct (calculate_growth_rates_total df Hid) as [gs Hgs].
  exists gs. split; [exact Hgs |]. split.
  { symmetry. eapply Forall2_length, calculate_growth_rates_inv, Hgs. }
  intros k r g m i ci cp Hr Hg Hi Hci Hcp.
  rewrite (growth_table_slot _ _ _ _ _ m i Hgs Hr Hg Hi).
  repeat split.
  - intros e He. f_equal. eapply slot_value_fault, He.
  - intros Hmiss. f_equal. eapply slot_value_missing; eassumption.
  - intros r' Hc Hp. f_equal. symmetry.
    eapply slot_value_agree; eassumption.
Qed.

(** The worked workbook, where one cell of company B holds text. *)
Lemma slot_fault_is_isolated_witness :
  Forall identified joined_sheet
  /\ exists gs, result (calculate_growth_rates joined_sheet) = Ok gs
               /\ length gs = length joined_sheet.
Proof.
  assert (Hid : Forall identified joined_sheet)
    by (repeat constructor; eexists; vm_compute; reflexivity).
  split; [exact Hid |].
  destruct (slot_fault_is_isolated joined_sheet Hid) as (gs & Hgs & Hlen & _).
  exists gs. split; assumption.
Defined.

(** ** The scenario of company B *)

Lemma scenario_slot (r : row) (i : nat) (ci cp : string)
    (zc zp : Z) (xc xp : float) (v : option float) :
  columns_of Total_Revenue !! i = Some ci ->
  columns_of Total_Revenue !! (i - 1) = Some cp ->
  holds r ci zc xc -> holds r cp zp xp ->
  result (growth_of_values (Int zc) (Int zp)) = Ok v ->
  result (growth_of_values (Int zc) (Num xp)) = Ok v ->
  result (growth_of_values (Num xc) (Int zp)) = Ok v ->
  result (growth_of_values (Num xc) (Num xp)) = Ok v ->
  slot_value r (columns_of Total_Revenue) i = v.
Proof.
  intros Hci Hcp [Hc | Hc] [Hp | Hp] Hii Hif Hfi Hff;
    destruct (slot_value_of_values _ _ _ _ _ _ _ Hci Hcp Hc Hp) as [-> _].
  - rewrite Hii. reflexivity.
  - rewrite Hif. reflexivity.
  - rewrite Hfi. reflexivity.
  - rewrite Hff. reflexivity.
Qed.

(** C7. A row with revenue snapshots 0, 50, 55, 60, 66, each read as a
    whole number or as the float of that value, has the revenue slots
    [None; 10; 9.0909...; 10] and an average revenue growth of about
    9.70. *)
Theorem scenario_zero_first_snapshot
    (df : list row) (k : nat) (r : row) :
  Forall identified df ->
  df !! k = Some r ->
  holds r "Total Revenue [LTM - 16]" 0 0 ->
  holds r "Total Revenue [LTM - 12]" 50 50 ->
  holds r "Total Revenue [LTM - 8]" 55 55 ->
  holds r "Total Revenue [LTM - 4]" 60 60 ->
  holds r "Total Revenue [LTM]" 66 66 ->
  exists gs g slot3 avg,
    result (calculate_growth_rates df) = Ok gs
    /\ gs !! k = Some g
    /\ Growth_Rates Total_Revenue g
       = [None; Some 10%float; Some slot3; Some 10%float]
    /\ (9.0909 <? slot3)%float = true /\ (slot3 <? 9.0910)%float = true
    /\ Avg_Growth Total_Revenue g = avg
    /\ (abs (avg - 9.70) <? 0.005)%float = true.
Proof.
  intros Hid Hr H16 H12 H8 H4 H0.
  destruct (calculate_growth_rates_total df Hid) as [gs H].
  destruct (Forall2_lookup_l _ _ _ _ _ (calculate_growth_rates_inv _ _ H) Hr)
    as (g & Hg & t & n & s & _ & _ & _ & ->).
  assert (Hrates : rates r Total_Revenue
                   = [None; Some 10%float; Some 9.0909090909090917%float;
                      Some 10%float]).
  { unfold rates.
    change (slot_indices (columns_of Total_Revenue)) with [1; 2; 3; 4].
    cbn [map].
    rewrite (scenario_slot r 1 _ _ _ _ _ _ None eq_refl eq_refl H12 H16)
      by (vm_compute; reflexivity).
    rewrite (scenario_slot r 2 _ _ _ _ _ _ (Some 10%float)
               eq_refl eq_refl H8 H12) by (vm_compute; reflexivity).
    rewrite (scenario_slot r 3 _ _ _ _ _ _ (Some 9.0909090909090917%float)
               eq_refl eq_refl H4 H8) by (vm_compute; reflexivity).
    rewrite (scenario_slot r 4 _ _ _ _ _ _ (Some 10%float)
               eq_refl eq_refl H0 H4) by (vm_compute; reflexivity).
    reflexivity. }
  exists gs, (growth_record r t n s),
    9.0909090909090917%float, 9.6969696969696972%float.
  rewrite Growth_Rates_record, Avg_Growth_record, Hrates.
  split; [exact H |]. split; [exact Hg |].
  repeat split; vm_compute; reflexivity.
Qed.

(** Company B of the worked workbook. *)
Lemma scenario_zero_first_snapshot_witness :
  Forall identified joined_sheet
  /\ exists gs g slot3 avg,
       result (calculate_growth_rates joined_sheet) = Ok gs
       /\ gs !! 1 = Some g
       /\ Growth_Rates Total_Revenue g
          = [None; Some 10%float; Some slot3; Some 10%float]
       /\ (9.0909 <? slot3)%float = true /\ (slot3 <? 9.0910)%float = true
       /\ Avg_Growth Total_Revenue g = avg
       /\ (abs (avg - 9.70) <? 0.005)%float = true.
Proof.
  assert (Hid : Forall identified joined_sheet)
    by (repeat constructor; eexists; vm_compute; reflexivity).
  split; [exact Hid |].
  apply (scenario_zero_first_snapshot joined_sheet 1
           (join_row company_B (Text "B", Text "Tech")) Hid).
  - reflexivity.
  - right. vm_compute. reflexivity.
  - right. vm_compute. reflexivity.
  - right. vm_compute. reflexivity.
  - right. vm_compute. reflexivity.
  - right. vm_compute. reflexivity.
Defined.

(** ** Equality and order of binary64 values *)

Ltac sf_cases :=
  solve [ split; [discriminate | intros [? ?]; congruence]
        | split; [intros _; split; [discriminate | reflexivity] | reflexivity] ].

Lemma SFeqb_class (a b : spec_float) :
  SFeqb a b = true <-> a <> S754_nan /\ sf_class a = sf_class b.
Proof.
  unfold SFeqb.
  destruct a as [sa | sa | | sa ma ea], b as [sb | sb | | sb mb eb]; simpl;
    try destruct sa; try destruct sb; simpl; try sf_cases.
  all: change (Pos.compare_cont Eq ma mb) with (Pos.compare ma mb).
  all: change (IntDef.Z.compare ea eb) with (Z.compare ea eb).
  all: destruct (Z.compare_spec ea eb) as [-> | Hlt | Hgt];
    [ destruct (Pos.compare_spec ma mb) as [-> | Hm | Hm]; simpl;
      [ sf_cases
      | split; [discriminate | intros [_ [= ->]]; lia]
      | split; [discriminate | intros [_ [= ->]]; lia] ]
    | split; [discriminate | intros [_ [= _ ->]]; lia]
    | split; [discriminate | intros [_ [= _ ->]]; lia] ].
Qed.

Lemma sf_class_nan (a : spec_float) : sf_class a = S754_nan -> a = S754_nan.
Proof. destruct a; simpl; congruence. Qed.

Lemma whole_of_class (a : spec_float) : whole_of (sf_class a) = whole_of a.
Proof. destruct a; reflexivity. Qed.

(** A valid finite number that stands for the whole number [z] is fixed by
    [z]: its sign, its exponent and its mantissa. *)
Lemma whole_of_finite (s : bool) (m : positive) (e z : Z) :
  valid_binary (S754_finite s m e) = true ->
  whole_of (S754_finite s m e) = Some z ->
  z <> 0%Z
  /\ s = (z <? 0)%Z
  /\ e = fexp prec emax (Zdigits2 (Z.abs z))
  /\ Z.pos m = (if (0 <=? e)%Z then Z.abs z / 2 ^ e
                else Z.abs z * 2 ^ (- e))%Z.
Proof.
  simpl. unfold bounded, canonical_mantissa.
  intros Hv Hw. apply andb_true_iff in Hv as [Hc _]. apply Z.eqb_eq in Hc.
  change (Z.pos (digits2_pos m)) with (Zdigits2 (Z.pos m)) in Hc.
  destruct (0 <=? e)%Z eqn:He.
  - apply Z.leb_le in He. injection Hw as <-.
    assert (Hp : (0 < 2 ^ e)%Z) by (apply Z.pow_pos_nonneg; lia).
    assert (Habs : Z.abs (cond_Zopp s (Z.pos m * 2 ^ e)) = (Z.pos m * 2 ^ e)%Z)
      by (destruct s; simpl; nia).
    rewrite Habs, Zdigits2_mul_pow2 by lia.
    repeat split.
    + destruct s; simpl; nia.
    + destruct s; simpl; symmetry; [apply Z.ltb_lt | apply Z.ltb_ge]; nia.
    + symmetry. exact Hc.
    + rewrite Z.div_mul by lia. reflexivity.
  - apply Z.leb_gt in He.
    destruct (Z.pos m mod 2 ^ (- e) =? 0)%Z eqn:Hmod; [| discriminate].
    apply Z.eqb_eq in Hmod. injection Hw as <-.
    assert (Hp : (0 < 2 ^ (- e))%Z) by (apply Z.pow_pos_nonneg; lia).
    set (w := (Z.pos m / 2 ^ (- e))%Z).
    assert (Hm : Z.pos m = (w * 2 ^ (- e))%Z).
    { unfold w. rewrite (Z.div_mod (Z.pos m) (2 ^ (- e))) at 1 by lia.
      rewrite Hmod. lia. }
    assert (Hw : (0 < w)%Z) by nia.
    assert (Habs : Z.abs (cond_Zopp s w) = w) by (destruct s; simpl; lia).
    rewrite Habs. repeat split.
    + destruct s; simpl; lia.
    + destruct s; simpl; symmetry; [apply Z.ltb_lt | apply Z.ltb_ge]; lia.
    + rewrite <- Hc, Hm, Zdigits2_mul_pow2 by lia. f_equal. lia.
    + exact Hm.
Qed.

(** Two valid binary numbers that stand for the same whole number are the
    same number, the sign of zero apart. *)
Lemma whole_of_inj (a b : spec_float) (z : Z) :
  valid_binary a = true -> valid_binary b = true ->
  whole_of a = Some z -> whole_of b = Some z ->
  sf_class a = sf_class b.
Proof.
  intros Ha Hb Hwa Hwb.
  destruct a as [sa | sa | | sa ma ea], b as [sb | sb | | sb mb eb];
    try discriminate; try reflexivity.
  - injection Hwa as <-.
    destruct (whole_of_finite _ _ _ _ Hb Hwb) as [H _]. congruence.
  - injection Hwb as <-.
    destruct (whole_of_finite _ _ _ _ Ha Hwa) as [H _]. congruence.
  - destruct (whole_of_finite _ _ _ _ Ha Hwa) as (_ & -> & -> & Hma).
    destruct (whole_of_finite _ _ _ _ Hb Hwb) as (_ & -> & -> & Hmb).
    simpl. f_equal. rewrite <- Hmb in Hma. injection Hma. auto.
Qed.

Lemma whole_of_nan (a : spec_float) (z : Z) :
  whole_of a = Some z -> a <> S754_nan.
Proof. intros H ->. discriminate. Qed.

Lemma float_key_class (x : float) :
  key_class (Num x)
  = match whole_of (Prim2SF x) with
    | Some z => inl (inl z)
    | None => inl (inr (sf_class (Prim2SF x)))
    end.
Proof. reflexivity. Qed.

Lemma key_eqb_class (a b : cell) :
  key_eqb a b = true <-> key_class a = key_class b.
Proof.
  destruct a as [x | x | s], b as [y | y | t];
    try (simpl; split; discriminate).
  - simpl. rewrite Z.eqb_eq. split; congruence.
  - rewrite float_key_class. simpl. unfold int_eqb_float.
    destruct (whole_of (Prim2SF y)) as [w |].
    + rewrite Z.eqb_eq. split; congruence.
    + split; discriminate.
  - rewrite float_key_class. simpl. unfold int_eqb_float.
    destruct (whole_of (Prim2SF x)) as [w |].
    + rewrite Z.eqb_eq. split; congruence.
    + split; discriminate.
  - rewrite !float_key_class.
    cbn [key_eqb].
    rewrite orb_true_iff, andb_true_iff, FloatAxioms.eqb_spec, SFeqb_class,
      !is_nan_Prim2SF.
    split.
    + intros [[_ H] | [Hx Hy]].
      * rewrite <- (whole_of_class (Prim2SF x)), <- (whole_of_class (Prim2SF y)),
          H.
        reflexivity.
      * rewrite Hx, Hy. reflexivity.
    + intros H.
      destruct (whole_of (Prim2SF x)) as [z |] eqn:Hwx,
               (whole_of (Prim2SF y)) as [w |] eqn:Hwy; try discriminate.
      * injection H as ->. left.
        split; [eapply whole_of_nan, Hwx |].
        apply (whole_of_inj _ _ w); auto using Prim2SF_valid.
      * injection H as H.
        destruct (Prim2SF x) as [sx | sx | | sx mx ex] eqn:Hx;
          try (left; split; [discriminate | exact H]).
        right. split; [reflexivity |]. symmetry in H.
        apply sf_class_nan in H. exact H.
  - rewrite float_key_class. simpl. split.
    + discriminate.
    + destruct (whole_of (Prim2SF x)); discriminate.
  - rewrite float_key_class. simpl. split.
    + discriminate.
    + destruct (whole_of (Prim2SF y)); discriminate.
  - simpl. rewrite String.eqb_eq. split; congruence.
Qed.

Lemma key_eqb_refl (a : cell) : key_eqb a a = true.
Proof. apply key_eqb_class. reflexivity. Qed.

Lemma key_eqb_sym (a b : cell) : key_eqb a b = key_eqb b a.
Proof.
  destruct (key_eqb a b) eqn:Hab, (key_eqb b a) eqn:Hba; try reflexivity.
  - apply key_eqb_class in Hab. symmetry in Hab.
    apply key_eqb_class in Hab. congruence.
  - apply key_eqb_class in Hba. symmetry in Hba.
    apply key_eqb_class in Hba. congruence.
Qed.

Lemma key_class_isna (a b : cell) :
  key_class a = key_class b -> isna a = isna b.
Proof.
  assert (Hwhole : forall x z, whole_of (Prim2SF x) = Some z -> is_nan x = false).
  { intros x z H. destruct (is_nan x) eqn:E; [| reflexivity].
    apply is_nan_Prim2SF in E. rewrite E in H. discriminate. }
  destruct a as [x | x | s], b as [y | y | t];
    rewrite ?float_key_class; simpl; try congruence.
  - destruct (whole_of (Prim2SF y)) as [w |] eqn:Hw; [| discriminate].
    intros _. symmetry. eapply Hwhole, Hw.
  - destruct (whole_of (Prim2SF x)) as [w |] eqn:Hw; [| discriminate].
    intros _. eapply Hwhole, Hw.
  - destruct (whole_of (Prim2SF x)) as [z |] eqn:Hwx,
             (whole_of (Prim2SF y)) as [w |] eqn:Hwy; try discriminate.
    + intros _. rewrite (Hwhole _ _ Hwx), (Hwhole _ _ Hwy). reflexivity.
    + intros [= H].
      destruct (is_nan x) eqn:Hx, (is_nan y) eqn:Hy; try reflexivity.
      * apply is_nan_Prim2SF in Hx. rewrite Hx in H. symmetry in H.
        apply sf_class_nan, is_nan_Prim2SF in H. congruence.
      * apply is_nan_Prim2SF in Hy. rewrite Hy in H.
        apply sf_class_nan, is_nan_Prim2SF in H. congruence.
  - destruct (whole_of (Prim2SF x)); discriminate.
  - destruct (whole_of (Prim2SF y)); discriminate.
Qed.

Lemma SFleb_total (a b : spec_float) :
  a <> S754_nan -> b <> S754_nan -> SFleb a b = true \/ SFleb b a = true.
Proof.
  intros Ha Hb. unfold SFleb.
  destruct a as [sa | sa | | sa ma ea], b as [sb | sb | | sb mb eb];
    try congruence; simpl;
    try (destruct sa; auto; fail); try (destruct sb; auto; fail);
    try (destruct sa, sb; auto; fail).
  change (Pos.compare_cont Eq ma mb) with (Pos.compare ma mb).
  change (Pos.compare_cont Eq mb ma) with (Pos.compare mb ma).
  change (IntDef.Z.compare ea eb) with (Z.compare ea eb).
  change (IntDef.Z.compare eb ea) with (Z.compare eb ea).
  rewrite (Z.compare_antisym ea eb), (Pos.compare_antisym ma mb).
  destruct sa, sb; auto;
    destruct (Z.compare ea eb); simpl; auto;
    destruct (Pos.compare ma mb); simpl; auto.
Qed.

Lemma float_leb_total (x y : float) :
  is_nan x = false -> is_nan y = false ->
  (x <=? y)%float = true \/ (y <=? x)%float = true.
Proof.
  intros Hx Hy. rewrite !FloatAxioms.leb_spec. apply SFleb_total.
  - intros E. apply is_nan_Prim2SF in E. congruence.
  - intros E. apply is_nan_Prim2SF in E. congruence.
Qed.

(** ** Ordering a list *)

Section Sorting.
Context {A : Type} (leb : A -> A -> bool).

Lemma insert_by_perm (x : A) (l : list A) :
  Permutation (insert_by leb x l) (x :: l).
Proof.
  induction l as [| y l IH]; simpl.
  - reflexivity.
  - destruct (leb x y); [reflexivity |].
    rewrite IH. apply perm_swap.
Qed.

Lemma sort_by_perm (l : list A) : Permutation (sort_by leb l) l.
Proof.
  induction l as [| x l IH]; simpl.
  - reflexivity.
  - rewrite insert_by_perm, IH. reflexivity.
Qed.

(** On a domain [P] where any two values compare, the outcome ascends. *)
Variable P : A -> Prop.
Hypothesis leb_total : forall x y, P x -> P y -> leb x y = true \/ leb y x = true.

Lemma insert_by_ascending (x : A) (l : list A) :
  P x -> Forall P l -> ascending leb l -> ascending leb (insert_by leb x l).
Proof.
  intros Hx Hl Hs. induction Hs as [| y l Hs IH Hhd]; simpl.
  - repeat constructor.
  - apply Forall_cons in Hl as [Hy Hl].
    destruct (leb x y) eqn:Hxy.
    + constructor; [constructor; assumption |]. constructor. exact Hxy.
    + constructor; [apply IH, Hl |].
      destruct (leb_total x y Hx Hy) as [E | Hyx]; [congruence |].
      destruct Hhd as [| z l Hyz]; simpl.
      * constructor. exact Hyx.
      * destruct (leb x z); constructor; assumption.
Qed.

Lemma sort_by_ascending (l : list A) : Forall P l -> ascending leb (sort_by leb l).
Proof.
  induction 1 as [| x l Hx Hl IH]; simpl.
  - constructor.
  - apply insert_by_ascending; [exact Hx | | exact IH].
    eapply Permutation_Forall; [| exact Hl].
    symmetry. apply sort_by_perm.
Qed.
End Sorting.

(** ** Group keys *)

Lemma unique_incl (l : list cell) (x : cell) : In x (unique l) -> In x l.
Proof.
  revert x. induction l as [| y l IH]; simpl; intros x H.
  - exact H.
  - destruct H as [-> | H]; [left; reflexivity |].
    apply filter_In in H as [H _]. right. apply IH, H.
Qed.

Lemma unique_covers (l : list cell) (x : cell) :
  In x l -> exists y, In y (unique l) /\ key_eqb y x = true.
Proof.
  induction l as [| z l IH]; simpl; intros H.
  - destruct H.
  - destruct H as [-> | H].
    + exists x. split; [left; reflexivity | apply key_eqb_refl].
    + destruct (IH H) as (y & Hy & Hyx).
      destruct (key_eqb z y) eqn:Hzy.
      * exists z. split; [left; reflexivity |].
        apply key_eqb_class. apply key_eqb_class in Hzy, Hyx. congruence.
      * exists y. split; [| exact Hyx].
        right. apply filter_In. split; [exact Hy |]. rewrite Hzy. reflexivity.
Qed.

Lemma unique_distinct (l : list cell) : NoDup (map key_class (unique l)).
Proof.
  induction l as [| x l IH]; simpl.
  - constructor.
  - constructor.
    + intros Hin. apply list_elem_of_In in Hin.
      apply in_map_iff in Hin as (y & Hy & Hin).
      apply filter_In in Hin as [_ Hne].
      symmetry in Hy. apply key_eqb_class in Hy. rewrite Hy in Hne. discriminate.
    + revert IH. generalize (unique l) as u.
      induction u as [| y u IHu]; simpl; intros Hnd.
      * constructor.
      * apply NoDup_cons in Hnd as [Hy Hnd].
        destruct (key_eqb x y); simpl; [apply IHu, Hnd |].
        constructor; [| apply IHu, Hnd].
        intros Hin. apply Hy.
        apply list_elem_of_In in Hin. apply list_elem_of_In.
        apply in_map_iff in Hin as (z & Hz & Hin).
        apply filter_In in Hin as [Hin _].
        apply in_map_iff. eauto.
Qed.

Lemma split_keys_perm (ks : list cell) :
  Permutation (List.filter is_number ks ++ map Text (omap text_of ks)) ks.
Proof.
  induction ks as [| [x | x | s] ks IH]; simpl.
  - reflexivity.
  - constructor. exact IH.
  - constructor. exact IH.
  - rewrite <- Permutation_middle. constructor. exact IH.
Qed.

Lemma sort_keys_perm (ks : list cell) : Permutation (sort_keys ks) ks.
Proof.
  unfold sort_keys. rewrite !sort_by_perm. apply split_keys_perm.
Qed.

Lemma group_keys_spec (growth_df : list company_growth) (k : cell) :
  In k (group_keys growth_df)
  -> isna k = false /\ exists g, In g growth_df /\ Sector g = k.
Proof.
  unfold group_keys. intros H.
  apply (Permutation_in _ (sort_keys_perm _)) in H.
  apply unique_incl, filter_In in H as [H Hna].
  apply in_map_iff in H as (g & Hg & Hin).
  split; [destruct (isna k); [discriminate | reflexivity] | eauto].
Qed.

Lemma group_keys_covers (growth_df : list company_growth) (g : company_growth) :
  In g growth_df -> isna (Sector g) = false ->
  exists k, In k (group_keys growth_df) /\ key_eqb k (Sector g) = true.
Proof.
  intros Hin Hna.
  destruct (unique_covers
              (List.filter (fun c => negb (isna c)) (map Sector growth_df))
              (Sector g)) as (k & Hk & Hkg).
  - apply filter_In. split; [apply in_map, Hin | rewrite Hna; reflexivity].
  - exists k. split; [| exact Hkg].
    unfold group_keys.
    apply (Permutation_in _ (Permutation_sym (sort_keys_perm _))), Hk.
Qed.

Lemma group_keys_distinct (growth_df : list company_growth) :
  NoDup (map key_class (group_keys growth_df)).
Proof.
  unfold group_keys.
  rewrite (Permutation_map key_class (sort_keys_perm _)).
  apply unique_distinct.
Qed.

(** ** The sector table *)

Lemma sector_table_inv growth_df out :
  calculate_sector_growth growth_df = Ok out ->
  out = map (sector_record growth_df) (group_keys growth_df).
Proof.
  destruct growth_df; simpl; [discriminate |]. intros [= <-]. reflexivity.
Qed.

Lemma calculate_sector_growth_total growth_df :
  growth_df <> [] -> exists out, calculate_sector_growth growth_df = Ok out.
Proof.
  destruct growth_df; [congruence |]. intros _. eexists. reflexivity.
Qed.

Lemma sector_table_labels growth_df out :
  calculate_sector_growth growth_df = Ok out ->
  map SectorGrowth.Sector out = group_keys growth_df.
Proof.
  intros H. rewrite (sector_table_inv _ _ H), map_map. simpl. apply map_id.
Qed.

Lemma sector_record_value growth_df k m :
  SectorGrowth.Avg_Growth m (sector_record growth_df k)
  = agg_median m k growth_df.
Proof. destruct m; reflexivity. Qed.

Lemma load_eq financial_df sector_df keys :
  sector_df <> [] ->
  left_keys financial_df = Ok keys ->
  mergeable_keys keys (map fst sector_df) = true ->
  load_and_preprocess_data financial_df sector_df
  = Ok (concat (zip_with (merge_row sector_df) financial_df keys)).
Proof.
  intros Hne Hk Hm. unfold load_and_preprocess_data, name_columns.
  destruct sector_df as [| e sd]; [congruence |].
  rewrite Hk, Hm. reflexivity.
Qed.

(** When the loader returns, the sector sheet has a row, every financial
    row has its ticker, and the result is the rows of the join. *)
Lemma load_inv financial_df sector_df out :
  load_and_preprocess_data financial_df sector_df = Ok out ->
  exists keys,
    sector_df <> []
    /\ left_keys financial_df = Ok keys
    /\ mergeable_keys keys (map fst sector_df) = true
    /\ out = concat (zip_with (merge_row sector_df) financial_df keys).
Proof.
  unfold load_and_preprocess_data, name_columns. intros H.
  destruct sector_df as [| e sd]; [discriminate |].
  destruct (left_keys financial_df) as [keys | e'] eqn:Hkeys; [| discriminate].
  destruct (mergeable_keys keys (map fst (e :: sd))) eqn:Hm; [| discriminate].
  injection H as <-. exists keys. repeat split; congruence.
Qed.

Lemma worked_join :
  load_and_preprocess_data financial_sheet sector_sheet = Ok joined_sheet.
Proof.
  rewrite (load_eq _ _ [Text "A"; Text "B"; Text "XYZ"]).
  - reflexivity.
  - discriminate.
  - vm_compute. reflexivity.
  - reflexivity.
Qed.

Lemma worked_growth :
  result (calculate_growth_rates joined_sheet) = Ok growth_table.
Proof. vm_compute. reflexivity. Qed.

(** C3, as stated, fails: company XYZ has no sector, its growth record
    carries the missing label, and the sector table holds the one record
    of Tech and none for the missing label. *)
Lemma missing_sector_forms_no_group :
  load_and_preprocess_data financial_sheet sector_sheet = Ok joined_sheet
  /\ result (calculate_growth_rates joined_sheet) = Ok growth_table
  /\ In growth_XYZ growth_table
  /\ isna (Sector growth_XYZ) = true
  /\ calculate_sector_growth growth_table = Ok [sector_Tech]
  /\ ~ exists s, In s [sector_Tech]
                 /\ key_eqb (SectorGrowth.Sector s) (Sector growth_XYZ) = true.
Proof.
  split; [exact worked_join |].
  split; [exact worked_growth |].
  split; [right; right; left; reflexivity |].
  split; [reflexivity |].
  split; [vm_compute; reflexivity |].
  intros (s & [<- | []] & H). vm_compute in H. discriminate.
Qed.

(** C3, amended. The sector table has one record for every distinct
    sector label that is not missing: every growth record with a label is
    covered by a record of the table, no two records of the table carry
    the same label, and every label of the table is the label, not
    missing, of some growth record.  Growth records whose sector is
    missing are in no group. *)
Theorem one_record_per_defined_sector (growth_df : list company_growth) :
  growth_df <> [] ->
  exists out,
  calculate_sector_growth growth_df = Ok out /\
  (forall g, In g growth_df -> isna (Sector g) = false ->
     exists s, In s out /\ key_eqb (SectorGrowth.Sector s) (Sector g) = true)
  /\ (forall i j s s', out !! i = Some s -> out !! j = Some s' ->
        key_eqb (SectorGrowth.Sector s) (SectorGrowth.Sector s') = true ->
        i = j)
  /\ (forall s, In s out ->
        isna (SectorGrowth.Sector s) = false
        /\ exists g, In g growth_df /\ Sector g = SectorGrowth.Sector s)
  /\ (forall g, In g growth_df -> isna (Sector g) = true ->
        forall s, In s out ->
          key_eqb (SectorGrowth.Sector s) (Sector g) = false).
Proof.
  intros Hne. destruct (calculate_sector_growth_total _ Hne) as [out H].
  exists out. split; [exact H |].
  pose proof (sector_table_labels _ _ H) as Hlabels.
  assert (Hin : forall s, In s out ->
                  In (SectorGrowth.Sector s) (group_keys growth_df)).
  { intros s Hs. rewrite <- Hlabels. apply in_map, Hs. }
  repeat split.
  - intros g Hg Hna.
    destruct (group_keys_covers _ _ Hg Hna) as (k & Hk & Hkg).
    rewrite <- Hlabels in Hk. apply in_map_iff in Hk as (s & <- & Hs). eauto.
  - intros i j s s' Hi Hj Heq.
    pose proof (group_keys_distinct growth_df) as Hnd.
    rewrite <- Hlabels, map_map in Hnd.
    apply key_eqb_class in Heq.
    eapply (NoDup_lookup _ i j _ Hnd).
    + rewrite list_lookup_fmap, Hi. reflexivity.
    + rewrite list_lookup_fmap, Hj. simpl. rewrite Heq. reflexivity.
  - apply (group_keys_spec growth_df), Hin, H0.
  - apply (group_keys_spec growth_df), Hin, H0.
  - intros g Hg Hna s Hs.
    destruct (key_eqb (SectorGrowth.Sector s) (Sector g)) eqn:Heq;
      [| reflexivity].
    apply key_eqb_class, key_class_isna in Heq.
    apply Hin, group_keys_spec in Hs as [Hs _]. congruence.
Qed.

(** The growth table of the worked workbook. *)
Lemma one_record_per_defined_sector_witness :
  growth_table <> []
  /\ exists out,
       calculate_sector_growth growth_table = Ok out
       /\ forall g, In g growth_table -> isna (Sector g) = false ->
            exists s, In s out
                      /\ key_eqb (SectorGrowth.Sector s) (Sector g) = true.
Proof.
  assert (Hne : growth_table <> []) by discriminate.
  split; [exact Hne |].
  destruct (one_record_per_defined_sector growth_table Hne)
    as (out & H & Hcover & _).
  exists out. split; [exact H | exact Hcover].
Defined.


(** C4. Every sector that some growth record carries has a record in the
    sector table, and for every record of the sector table and every
    metric the value is the median of the averages, NaN left out, of the
    growth records of that sector: these averages in ascending order, the
    middle one for an odd count, the mean of the two middle ones for an
    even count, and NaN when no average is defined. *)
Theorem sector_value_is_median (growth_df : list company_growth) :
  growth_df <> [] ->
  exists out,
  calculate_sector_growth growth_df = Ok out /\
  (forall g, In g growth_df -> isna (Sector g) = false ->
     exists s, In s out /\ key_eqb (SectorGrowth.Sector s) (Sector g) = true)
  /\
  forall s m, In s out ->
    let averages :=
      map (Avg_Growth m) (group_of (SectorGrowth.Sector s) growth_df) in
    exists sorted : list float,
      Permutation sorted (dropna averages)
      /\ ascending PrimFloat.leb sorted
      /\ SectorGrowth.Avg_Growth m s
         = match length sorted with
           | 0 => nan
           | S _ as n =>
               if Nat.odd n then nth (n / 2) sorted nan
               else ((nth (n / 2) sorted nan + nth (n / 2 - 1) sorted nan)
                     / 2)%float
           end
      /\ (dropna averages = [] -> is_nan (SectorGrowth.Avg_Growth m s) = true).
Proof.
  intros Hne. destruct (calculate_sector_growth_total _ Hne) as [out H].
  exists out. split; [exact H |]. split.
  { intros g Hg Hna.
    destruct (group_keys_covers _ _ Hg Hna) as (k & Hk & Hkg).
    rewrite <- (sector_table_labels _ _ H) in Hk.
    apply in_map_iff in Hk as (s & <- & Hs). eauto. }
  intros s m Hs averages.
  rewrite (sector_table_inv _ _ H) in Hs.
  apply in_map_iff in Hs as (k & <- & _).
  rewrite sector_record_value. simpl in averages.
  exists (sort_by PrimFloat.leb (dropna averages)).
  split; [apply sort_by_perm |]. split.
  - apply (sort_by_ascending PrimFloat.leb (fun x => is_nan x = false)).
    + exact float_leb_total.
    + apply Forall_forall. intros x Hx. apply list_elem_of_In in Hx.
      apply filter_In in Hx as [_ Hx]. destruct (is_nan x); [discriminate | reflexivity].
  - split.
    + unfold agg_median, pd_median. fold averages.
      destruct (length (sort_by PrimFloat.leb (dropna averages))); reflexivity.
    + intros Hnil. unfold agg_median, pd_median. fold averages.
      rewrite Hnil. reflexivity.
Qed.

(** The growth table of the worked workbook: the sector of company A has
    a record, whose revenue value is the mean of the two revenue averages
    of its group. *)
Lemma sector_value_is_median_witness :
  growth_table <> []
  /\ exists out s sorted,
       calculate_sector_growth growth_table = Ok out
       /\ In s out
       /\ key_eqb (SectorGrowth.Sector s) (Sector growth_A) = true
       /\ Permutation sorted
            (dropna (map (Avg_Growth Total_Revenue)
                       (group_of (SectorGrowth.Sector s) growth_table)))
       /\ ascending PrimFloat.leb sorted
       /\ SectorGrowth.Avg_Growth Total_Revenue s
          = match length sorted with
            | 0 => nan
            | S _ as n =>
                if Nat.odd n then nth (n / 2) sorted nan
                else ((nth (n / 2) sorted nan + nth (n / 2 - 1) sorted nan)
                      / 2)%float
            end
       /\ length sorted = 2
       /\ SectorGrowth.Avg_Growth Total_Revenue s = 9.8484848484848477%float.
Proof.
  assert (Hne : growth_table <> []) by discriminate.
  split; [exact Hne |].
  destruct (sector_value_is_median growth_table Hne) as (out & H & Hcover & Hmed).
  destruct (Hcover growth_A (or_introl eq_refl) eq_refl) as (s & Hs & Hkey).
  destruct (Hmed s Total_Revenue Hs) as (sorted & Hperm & Hasc & Hval & _).
  exists out, s, sorted. repeat split; try assumption.
  - assert (Hc : calculate_sector_growth growth_table = Ok [sector_Tech])
      by (vm_compute; reflexivity).
    rewrite Hc in H. injection H as <-. destruct Hs as [<- | []].
    rewrite (Permutation_length Hperm). reflexivity.
  - assert (Hc : calculate_sector_growth growth_table = Ok [sector_Tech])
      by (vm_compute; reflexivity).
    rewrite Hc in H. injection H as <-. destruct Hs as [<- | []].
    reflexivity.
Defined.

(** ** The left join *)

Lemma matches_at_most_one key sector_df :
  distinct_tickers sector_df = true -> length (matches key sector_df) <= 1.
Proof.
  induction sector_df as [| e sd IH]; simpl; intros Hd.
  - lia.
  - apply andb_true_iff in Hd as [Hrest Hd]. specialize (IH Hd).
    destruct (key_eqb key (fst e)) eqn:He; [| exact IH].
    simpl. destruct (matches key sd) as [| e' ms] eqn:Hms; [simpl; lia |].
    exfalso.
    assert (Hin : In e' (matches key sd)) by (rewrite Hms; left; reflexivity).
    apply filter_In in Hin as [Hin He'].
    rewrite forallb_forall in Hrest. specialize (Hrest e' Hin).
    apply negb_true_iff in Hrest.
    assert (key_eqb (fst e) (fst e') = true); [| congruence].
    apply key_eqb_class. apply key_eqb_class in He, He'. congruence.
Qed.

Lemma add_right_column_other name v (r : row) c :
  c <> name -> c <> String.append name "_x" -> c <> String.append name "_y" ->
  add_right_column name v r !! c = r !! c.
Proof.
  intros H1 H2 H3. unfold add_right_column.
  destruct (r !! name) as [old |].
  - rewrite !lookup_insert_ne by congruence.
    apply lookup_delete_ne. congruence.
  - apply lookup_insert_ne. congruence.
Qed.

(** A join leaves every column of the financial sheet as it was. *)
Lemma join_row_other (r : row) entry c :
  ~ In c join_labels -> join_row r entry !! c = r !! c.
Proof.
  intros Hc. unfold join_row.
  rewrite !add_right_column_other; try reflexivity;
    intros ->; apply Hc; simpl; tauto.
Qed.

Lemma join_row_sector (r : row) entry :
  join_row r entry !! sector_column r = Some (snd entry).
Proof.
  unfold join_row, sector_column.
  assert (Hs : add_right_column "Ticker" (fst entry) r !! "Sector" = r !! "Sector")
    by (apply add_right_column_other; discriminate).
  unfold add_right_column at 1. rewrite Hs.
  destruct (r !! "Sector"); simpl; apply lookup_insert_eq.
Qed.

Lemma left_keys_lookup financial_df keys :
  left_keys financial_df = Ok keys ->
  Forall2 (fun (r : row) key => r !! "Exchange:Ticker" = Some key)
    financial_df keys.
Proof.
  revert keys. induction financial_df as [| r rest IH]; simpl; intros keys H.
  - injection H as <-. constructor.
  - destruct (r !! "Exchange:Ticker") as [key |] eqn:Hkey; [| discriminate].
    destruct (left_keys rest) as [ks | e]; [| discriminate].
    injection H as <-. constructor; [exact Hkey | apply IH; reflexivity].
Qed.

Lemma merge_row_distinct sector_df (r : row) key :
  distinct_tickers sector_df = true ->
  exists entry,
    merge_row sector_df r key = [join_row r entry]
    /\ ((matches key sector_df = [] /\ entry = (NaN, NaN))
        \/ (In entry sector_df /\ key_eqb key (fst entry) = true)).
Proof.
  intros Hd. unfold merge_row.
  pose proof (matches_at_most_one key _ Hd) as Hlen.
  destruct (matches key sector_df) as [| e ms] eqn:Hms.
  - exists (NaN, NaN). auto.
  - destruct ms; [| simpl in Hlen; lia].
    exists e. split; [reflexivity |].
    right. apply (proj1 (filter_In (fun e0 => key_eqb key (fst e0)) e sector_df)).
    unfold matches in Hms. rewrite Hms. left. reflexivity.
Qed.

(** C5, as stated, fails: with a ticker listed twice in the sector sheet
    the one financial row comes out twice. *)
Lemma repeated_ticker_duplicates_row :
  load_and_preprocess_data [company_A]
    [(Text "A", Text "Tech"); (Text "A", Text "Energy")]
  = Ok [join_row company_A (Text "A", Text "Tech");
        join_row company_A (Text "A", Text "Energy")]
  /\ length [join_row company_A (Text "A", Text "Tech");
             join_row company_A (Text "A", Text "Energy")]
     <> length [company_A].
Proof.
  split; [| discriminate].
  rewrite (load_eq _ _ [Text "A"]).
  - reflexivity.
  - discriminate.
  - vm_compute. reflexivity.
  - reflexivity.
Qed.

Lemma left_keys_text financial_df :
  Forall (fun r : row => exists t, r !! "Exchange:Ticker" = Some (Text t))
    financial_df ->
  exists keys,
    left_keys financial_df = Ok keys /\ Forall (fun c => is_text c = true) keys.
Proof.
  induction 1 as [| r rest [t Ht] _ (keys & Hkeys & Htext)]; simpl.
  - exists []. split; [reflexivity | constructor].
  - rewrite Ht, Hkeys. exists (Text t :: keys).
    split; [reflexivity | constructor; [reflexivity | exact Htext]].
Qed.

Lemma text_keys_mergeable (lk rk : list cell) :
  Forall (fun c => is_text c = true) lk ->
  Forall (fun c => is_text c = true) rk ->
  mergeable_keys lk rk = true.
Proof.
  intros Hl Hr. destruct Hl as [| c lk Hc _]; [reflexivity |].
  destruct Hr as [| c' rk Hc' _]; [reflexivity |].
  unfold mergeable_keys. simpl. rewrite Hc, Hc'. reflexivity.
Qed.

(** C5, amended. Provided no two rows of the sector sheet carry the same
    ticker: the loader accepts two sheets whose tickers are text, the
    sector sheet not empty; and whenever the loader accepts the two
    sheets, the left join yields the rows of the financial sheet one for
    one and in order: the row at position [k] is the financial row at [k]
    with its columns as they were and one sector value joined to it, the
    sector of the sheet row with its ticker, or NaN when no sheet row has
    its ticker. *)
Theorem left_join_keeps_each_row_once
    (financial_df : list row) (sector_df : list (cell * cell)) :
  distinct_tickers sector_df = true ->
  (sector_df <> [] ->
   Forall (fun r : row => exists t, r !! "Exchange:Ticker" = Some (Text t))
     financial_df ->
   Forall (fun e => is_text (fst e) = true) sector_df ->
   exists out, load_and_preprocess_data financial_df sector_df = Ok out)
  /\
  forall out,
    load_and_preprocess_data financial_df sector_df = Ok out ->
    length out = length financial_df
    /\ forall k r, financial_df !! k = Some r ->
         exists key joined sector,
           r !! "Exchange:Ticker" = Some key
           /\ out !! k = Some joined
           /\ (forall c, ~ In c join_labels -> joined !! c = r !! c)
           /\ joined !! sector_column r = Some sector
           /\ ((matches key sector_df = [] /\ sector = NaN)
               \/ (exists ticker, In (ticker, sector) sector_df
                                 /\ key_eqb key ticker = true)).
Proof.
  intros Hd. split.
  { intros Hne Hleft Hright.
    destruct (left_keys_text _ Hleft) as (keys & Hkeys & Htext).
    eexists. apply (load_eq _ _ keys Hne Hkeys).
    apply text_keys_mergeable; [exact Htext |].
    apply Forall_map. exact Hright. }
  intros out Hload.
  destruct (load_inv _ _ _ Hload) as (keys & _ & Hkeys & _ & ->).
  apply left_keys_lookup in Hkeys. clear Hload.
  induction Hkeys as [| r0 key0 rest keys Hkey0 Hrest IH]; simpl.
  - split; [reflexivity |]. intros k r Hk. discriminate.
  - destruct (merge_row_distinct sector_df r0 key0 Hd) as (entry & -> & Hentry).
    destruct IH as [Hlen Hrows]. simpl.
    split; [rewrite Hlen; reflexivity |].
    intros [| k] r Hk; simpl in Hk.
    + injection Hk as <-. exists key0, (join_row r0 entry), (snd entry).
      split; [exact Hkey0 |]. split; [reflexivity |].
      split; [intros c Hc; apply join_row_other, Hc |].
      split; [apply join_row_sector |].
      destruct Hentry as [[Hnone ->] | [Hin Hk]]; [left; auto |].
      right. exists (fst entry). destruct entry. auto.
    + apply (Hrows k r Hk).
Qed.

(** The two sheets of the worked workbook: the loader accepts them, and
    company XYZ, which the sector sheet does not list, keeps its row and
    gains the missing sector. *)
Lemma left_join_keeps_each_row_once_witness :
  distinct_tickers sector_sheet = true
  /\ exists out,
       load_and_preprocess_data financial_sheet sector_sheet = Ok out
       /\ length out = length financial_sheet
       /\ exists key joined sector,
            company_XYZ !! "Exchange:Ticker" = Some key
            /\ out !! 2 = Some joined
            /\ joined !! sector_column company_XYZ = Some sector
            /\ ((matches key sector_sheet = [] /\ sector = NaN)
                \/ (exists ticker, In (ticker, sector) sector_sheet
                                  /\ key_eqb key ticker = true)).
Proof.
  assert (Hd : distinct_tickers sector_sheet = true) by reflexivity.
  split; [exact Hd |].
  destruct (left_join_keeps_each_row_once financial_sheet sector_sheet Hd)
    as [Haccept Hrows].
  destruct Haccept as [out Hl].
  - discriminate.
  - repeat constructor; eexists; vm_compute; reflexivity.
  - repeat constructor.
  - exists out. split; [exact Hl |].
    destruct (Hrows out Hl) as [Hlen Hrow]. split; [exact Hlen |].
    destruct (Hrow 2 company_XYZ eq_refl)
      as (key & joined & sector & Hkey & Hj & _ & Hs & Hcase).
    exists key, joined, sector. auto.
Defined.

(** ** The sector filter *)

Lemma filter_sublist {A} (f : A -> bool) (l : list A) :
  sublist (List.filter f l) l.
Proof.
  induction l as [| x l IH]; simpl.
  - constructor.
  - destruct (f x); constructor; exact IH.
Qed.

(** C8. Filtering by the selected sectors leaves the derived tables as
    they are and yields, for each, the sub-table of the rows whose sector
    is among the selected ones: every row shown is a row of the derived
    table, the rows keep their order, and every row of a selected sector
    is shown. *)
Theorem sector_filter_is_row_subset (selected_sectors : list cell) (d : tables) :
  let v := filter_data selected_sectors d in
  underlying v = d
  /\ sublist (filtered_growth_df v) (growth_df d)
  /\ sublist (filtered_sector_growth_df v) (sector_growth_df d)
  /\ (forall g, In g (filtered_growth_df v)
        <-> In g (growth_df d) /\ isin selected_sectors (Sector g) = true)
  /\ (forall s, In s (filtered_sector_growth_df v)
        <-> In s (sector_growth_df d)
            /\ isin selected_sectors (SectorGrowth.Sector s) = true).
Proof.
  simpl. split; [reflexivity |].
  split; [apply filter_sublist |]. split; [apply filter_sublist |].
  split; intros x; apply filter_In.
Qed.

(** * Further properties of the code *)

(** ** The growth calculator: identity columns *)

Lemma identified_dec (r : row) : {identified r} + {~ identified r}.
Proof.
  unfold identified.
  destruct (r !! "Exchange:Ticker") as [t |].
  2:{ right. intros [[x Hx] _]. discriminate. }
  destruct (r !! "Company Name") as [n |].
  2:{ right. intros (_ & [x Hx] & _). discriminate. }
  destruct (r !! "Sector") as [s |].
  2:{ right. intros (_ & _ & [x Hx]). discriminate. }
  left. eauto.
Qed.

Lemma company_growth_of_unidentified (r : row) :
  ~ identified r -> company_growth_of r = (Raise KeyError, []).
Proof.
  intros Hno. unfold company_growth_of, getitem.
  destruct (r !! "Exchange:Ticker") as [t |] eqn:Ht; [| reflexivity].
  rewrite bind_ret_l.
  destruct (r !! "Company Name") as [n |] eqn:Hn; [| reflexivity].
  rewrite bind_ret_l.
  destruct (r !! "Sector") as [s |] eqn:Hs; [| reflexivity].
  exfalso. apply Hno. unfold identified. rewrite Ht, Hn, Hs. eauto.
Qed.

(** X1. The calculator returns a table exactly when every row carries the
    three identity columns; a single row that lacks one of them makes the
    whole call end in [KeyError], unlike a fault inside a slot. *)
Theorem identity_column_missing_aborts (df : list row) :
  (Forall identified df
   /\ exists gs, result (calculate_growth_rates df) = Ok gs)
  \/ (Exists (fun r => ~ identified r) df
      /\ result (calculate_growth_rates df) = Raise KeyError).
Proof.
  induction df as [| r df IH]; simpl.
  - left. split; [constructor | eexists; reflexivity].
  - destruct (identified_dec r) as [Hid | Hno].
    + destruct Hid as ([t Ht] & [n Hn] & [s Hs]).
      rewrite (company_growth_of_eq r t n s Ht Hn Hs), bind_ok. cbv beta.
      destruct IH as [[Hall [gs Hgs]] | [Hex Herr]].
      * left. split.
        -- constructor; [unfold identified; rewrite Ht, Hn, Hs; eauto | exact Hall].
        -- rewrite (M_eta (calculate_growth_rates df)), Hgs, bind_ok. simpl.
           eexists. reflexivity.
      * right. split; [apply Exists_cons_tl, Hex |].
        rewrite (M_eta (calculate_growth_rates df)), Herr. reflexivity.
    + right. split; [apply Exists_cons_hd, Hno |].
      rewrite (company_growth_of_unidentified r Hno). reflexivity.
Qed.

(** X2. The growth table has one record per row, in the order of the
    rows; the record at position [k] carries the ticker, the company name
    and the sector of row [k] as the row holds them, and four slots for
    each metric. *)
Theorem growth_record_carries_identity (df : list row) :
  Forall identified df ->
  exists gs,
    result (calculate_growth_rates df) = Ok gs
    /\ length gs = length df
    /\ forall k r g, df !! k = Some r -> gs !! k = Some g ->
         r !! "Exchange:Ticker" = Some (Ticker g)
         /\ r !! "Company Name" = Some (Company_Name g)
         /\ r !! "Sector" = Some (Sector g)
         /\ forall m, length (Growth_Rates m g) = 4.
Proof.
  intros Hid. destruct (calculate_growth_rates_total df Hid) as [gs H].
  exists gs. split; [exact H |]. split.
  { symmetry. eapply Forall2_length, calculate_growth_rates_inv, H. }
  intros k r g Hr Hg.
  destruct (growth_table_lookup _ _ _ _ _ H Hr Hg)
    as (t & n & s & Ht & Hn & Hs & ->).
  simpl. repeat split; try assumption.
  intros m. rewrite Growth_Rates_record. apply rates_length.
Qed.

Lemma growth_record_carries_identity_witness :
  Forall identified joined_sheet
  /\ exists gs,
       result (calculate_growth_rates joined_sheet) = Ok gs
       /\ length gs = length joined_sheet.
Proof.
  assert (Hid : Forall identified joined_sheet)
    by (repeat constructor; eexists; vm_compute; reflexivity).
  split; [exact Hid |].
  destruct (growth_record_carries_identity joined_sheet Hid)
    as (gs & H & Hlen & _).
  exists gs. split; assumption.
Defined.

(** ** The growth calculator: divisions and columns *)

Lemma slot_trace_length r columns i :
  length (slot_trace r columns i)
  = match slot_value r columns i with Some _ => 1 | None => 0 end.
Proof.
  unfold slot_trace, slot_value, growth_slot. rewrite slot_body_lookup.
  destruct (columns !! i) as [ci |]; [| reflexivity].
  destruct (r !! ci) as [c |]; [| reflexivity].
  destruct (columns !! (i - 1)) as [cp |]; [| reflexivity].
  destruct (r !! cp) as [p |]; [| reflexivity].
  destruct (growth_of_values_outcome c p)
    as [-> | [(e & _ & ->) | (v & d & -> & _)]]; reflexivity.
Qed.

Lemma slots_trace_length r columns idx :
  length (concat (map (slot_trace r columns) idx))
  = length (defined_slots (map (slot_value r columns) idx)).
Proof.
  unfold defined_slots.
  induction idx as [| i idx IH]; simpl; [reflexivity |].
  rewrite length_app, slot_trace_length, IH.
  destruct (slot_value r columns i); reflexivity.
Qed.

Lemma row_trace_length r t n s :
  length (row_trace r) = defined_count (growth_record r t n s).
Proof.
  unfold row_trace, defined_count.
  change (Total_Revenue_Growth_Rates (growth_record r t n s))
    with (rates r Total_Revenue).
  change (Net_Income_Growth_Rates (growth_record r t n s))
    with (rates r Net_Income).
  change (EBITDA_Growth_Rates (growth_record r t n s)) with (rates r EBITDA).
  rewrite !length_app. unfold metric_trace, rates.
  rewrite !slots_trace_length. lia.
Qed.

Lemma calculate_growth_rates_cons (r : row) df t n s gs :
  r !! "Exchange:Ticker" = Some t ->
  r !! "Company Name" = Some n ->
  r !! "Sector" = Some s ->
  result (calculate_growth_rates df) = Ok gs ->
  calculate_growth_rates (r :: df)
  = (Ok (growth_record r t n s :: gs),
     row_trace r ++ trace (calculate_growth_rates df)).
Proof.
  intros Ht Hn Hs Hgs. simpl.
  rewrite (company_growth_of_eq r t n s Ht Hn Hs), bind_ok. cbv beta.
  destruct (calculate_growth_rates df) as [[gs' | e] tr]; simpl in Hgs;
    [| discriminate].
  injection Hgs as ->. unfold result, trace, bind, ret. simpl.
  rewrite app_nil_r. reflexivity.
Qed.

(** X3. The calculator performs exactly one division for each slot that
    ends up holding a number, and none for a slot that ends up [None]:
    the number of divisions of a run is the number of defined slots of
    the table it returns. *)
Theorem one_division_per_defined_slot (df : list row) :
  Forall identified df ->
  exists gs,
    result (calculate_growth_rates df) = Ok gs
    /\ length (trace (calculate_growth_rates df))
       = sum_list (map defined_count gs).
Proof.
  induction 1 as [| r df Hid _ IH].
  - eexists. split; reflexivity.
  - destruct Hid as ([t Ht] & [n Hn] & [s Hs]). destruct IH as (gs & Hgs & Hlen).
    rewrite (calculate_growth_rates_cons r df t n s gs Ht Hn Hs Hgs).
    exists (growth_record r t n s :: gs). split; [reflexivity |].
    unfold trace at 1. cbn [snd map sum_list sum_list_with].
    rewrite length_app, (row_trace_length r t n s), Hlen. reflexivity.
Qed.

Lemma one_division_per_defined_slot_witness :
  Forall identified joined_sheet
  /\ exists gs,
       result (calculate_growth_rates joined_sheet) = Ok gs
       /\ length (trace (calculate_growth_rates joined_sheet))
          = sum_list (map defined_count gs).
Proof.
  assert (Hid : Forall identified joined_sheet)
    by (repeat constructor; eexists; vm_compute; reflexivity).
  split; [exact Hid |].
  exact (one_division_per_defined_slot joined_sheet Hid).
Defined.

Lemma growth_slot_agree (r r' : row) columns i :
  (forall c, In c columns -> r !! c = r' !! c) ->
  growth_slot r columns i = growth_slot r' columns i.
Proof.
  intros H. unfold growth_slot. rewrite !slot_body_lookup.
  destruct (columns !! i) as [ci |] eqn:Hci; [| reflexivity].
  rewrite <- (H ci) by (apply list_elem_of_In, list_elem_of_lookup; eauto).
  destruct (r !! ci) as [c |]; [| reflexivity].
  destruct (columns !! (i - 1)) as [cp |] eqn:Hcp; [| reflexivity].
  rewrite <- (H cp) by (apply list_elem_of_In, list_elem_of_lookup; eauto).
  reflexivity.
Qed.

Lemma growth_loop_agree (r r' : row) columns idx :
  (forall c, In c columns -> r !! c = r' !! c) ->
  growth_loop r columns idx = growth_loop r' columns idx.
Proof.
  intros H. induction idx as [| i idx IH]; simpl; [reflexivity |].
  rewrite (growth_slot_agree r r' columns i H), IH. reflexivity.
Qed.

Lemma metric_growth_agree (r r' : row) m :
  (forall c, In c used_columns -> r !! c = r' !! c) ->
  metric_growth r m = metric_growth r' m.
Proof.
  intros H. unfold metric_growth.
  rewrite (growth_loop_agree r r'); [reflexivity |].
  intros c Hc. apply H. unfold used_columns.
  destruct m; simpl in Hc |- *; tauto.
Qed.

Lemma company_growth_of_agree (r r' : row) :
  (forall c, In c used_columns -> r !! c = r' !! c) ->
  company_growth_of r = company_growth_of r'.
Proof.
  intros H. unfold company_growth_of, getitem.
  rewrite <- (H "Exchange:Ticker") by (simpl; tauto).
  rewrite <- (H "Company Name") by (simpl; tauto).
  rewrite <- (H "Sector") by (simpl; tauto).
  rewrite !(metric_growth_agree r r' _ H). reflexivity.
Qed.

(** X4. The calculator reads the three identity columns and the fifteen
    snapshot columns and nothing else: two tables whose rows agree on
    these columns give the same result, be it a table or an exception,
    with the same divisions. *)
Theorem growth_reads_only_its_columns (df df' : list row) :
  Forall2 (fun r r' : row => forall c, In c used_columns -> r !! c = r' !! c)
    df df' ->
  calculate_growth_rates df = calculate_growth_rates df'.
Proof.
  induction 1 as [| r r' df df' Hr _ IH]; simpl; [reflexivity |].
  rewrite (company_growth_of_agree r r' Hr), IH. reflexivity.
Qed.

(** Company B, joined with its sector, with one more column. *)
Lemma growth_reads_only_its_columns_witness :
  calculate_growth_rates
    [<["Notes" := Text "audited"]> (join_row company_B (Text "B", Text "Tech"))]
  = calculate_growth_rates [join_row company_B (Text "B", Text "Tech")]
  /\ result (calculate_growth_rates
               [join_row company_B (Text "B", Text "Tech")])
     = Ok [growth_B].
Proof.
  split; [| vm_compute; reflexivity].
  apply growth_reads_only_its_columns.
  constructor; [| constructor].
  intros c Hc. apply lookup_insert_ne. intros <-.
  simpl in Hc. intuition discriminate.
Defined.


(** ** The sector aggregator: groups *)

Lemma sum_list_plus {A} (f g : A -> nat) (l : list A) :
  sum_list (map (fun x => f x + g x) l)
  = sum_list (map f l) + sum_list (map g l).
Proof. induction l as [| x l IH]; simpl; [reflexivity | rewrite IH; lia]. Qed.

Lemma sum_list_indicator {A} (p : A -> bool) (l : list A) :
  sum_list (map (fun x => if p x then 1 else 0) l) = length (List.filter p l).
Proof.
  induction l as [| x l IH]; simpl; [reflexivity |].
  destruct (p x); simpl; rewrite IH; reflexivity.
Qed.

(** Among keys of pairwise different classes at most one matches a label. *)
Lemma matching_keys_at_most_one (ks : list cell) (c : cell) :
  NoDup (map key_class ks) ->
  length (List.filter (fun k => key_eqb k c) ks) <= 1.
Proof.
  induction ks as [| k ks IH]; simpl; intros Hnd; [lia |].
  apply NoDup_cons in Hnd as [Hk Hnd]. specialize (IH Hnd).
  destruct (key_eqb k c) eqn:Hkc; [| exact IH]. simpl.
  destruct (List.filter (fun k0 => key_eqb k0 c) ks) as [| k' rest] eqn:Hf;
    [simpl; lia |].
  exfalso. apply Hk.
  assert (Hin : In k' (List.filter (fun k0 => key_eqb k0 c) ks))
    by (rewrite Hf; left; reflexivity).
  apply filter_In in Hin as [Hin Hk'c].
  apply key_eqb_class in Hkc, Hk'c.
  apply list_elem_of_In, in_map_iff. exists k'. split; [congruence | exact Hin].
Qed.

Lemma matching_keys_count (growth_df : list company_growth) (g : company_growth) :
  In g growth_df ->
  length (List.filter (fun k => key_eqb k (Sector g)) (group_keys growth_df))
  = if labelled g then 1 else 0.
Proof.
  intros Hin. unfold labelled.
  destruct (isna (Sector g)) eqn:Hna; simpl.
  - destruct (List.filter _ _) as [| k rest] eqn:Hf; [reflexivity |].
    exfalso.
    assert (Hk : In k (List.filter (fun k => key_eqb k (Sector g))
                         (group_keys growth_df)))
      by (rewrite Hf; left; reflexivity).
    apply filter_In in Hk as [Hk Heq].
    apply group_keys_spec in Hk as [Hk _].
    apply key_eqb_class, key_class_isna in Heq. congruence.
  - pose proof (matching_keys_at_most_one _ (Sector g)
                  (group_keys_distinct growth_df)) as Hle.
    destruct (group_keys_covers _ _ Hin Hna) as (k & Hk & Heq).
    assert (Hk' : In k (List.filter (fun k => key_eqb k (Sector g))
                          (group_keys growth_df)))
      by (apply filter_In; split; assumption).
    destruct (List.filter _ _) as [| k0 rest]; [destruct Hk' |].
    simpl in Hle |- *. lia.
Qed.

Lemma group_sizes_sum (ks : list cell) (l : list company_growth) :
  sum_list (map (fun k => length (group_of k l)) ks)
  = sum_list
      (map (fun g => length (List.filter (fun k => key_eqb k (Sector g)) ks)) l).
Proof.
  induction l as [| g l IH]; simpl.
  - induction ks as [| k ks IHk]; simpl; [reflexivity | exact IHk].
  - rewrite <- IH, <- sum_list_indicator, <- sum_list_plus.
    f_equal. apply map_ext. intros k. unfold group_of. simpl.
    destruct (key_eqb k (Sector g)); reflexivity.
Qed.

(** X5. The groups of the sector table partition the growth records that
    have a sector: every record of the table stands for at least one
    company, and the sizes of the groups add up to the number of records
    with a sector, so that each of them is counted in one group and one
    only. *)
Theorem sector_groups_partition (growth_df : list company_growth) :
  growth_df <> [] ->
  exists out,
    calculate_sector_growth growth_df = Ok out
    /\ (forall s, In s out ->
          group_of (SectorGrowth.Sector s) growth_df <> [])
    /\ sum_list
         (map (fun s => length (group_of (SectorGrowth.Sector s) growth_df)) out)
       = length (List.filter labelled growth_df).
Proof.
  intros Hne. destruct (calculate_sector_growth_total _ Hne) as [out H].
  exists out. split; [exact H |].
  pose proof (sector_table_labels _ _ H) as Hlabels. split.
  - intros s Hs Hempty.
    assert (Hk : In (SectorGrowth.Sector s) (group_keys growth_df))
      by (rewrite <- Hlabels; apply in_map, Hs).
    apply group_keys_spec in Hk as (_ & g & Hg & Heq).
    assert (Hin : In g (group_of (SectorGrowth.Sector s) growth_df)).
    { apply filter_In. split; [exact Hg |]. rewrite Heq. apply key_eqb_refl. }
    rewrite Hempty in Hin. destruct Hin.
  - rewrite <- (map_map SectorGrowth.Sector
                  (fun k => length (group_of k growth_df))), Hlabels.
    rewrite group_sizes_sum, <- sum_list_indicator.
    f_equal. apply map_ext_in. intros g Hg. apply matching_keys_count, Hg.
Qed.

Lemma sector_groups_partition_witness :
  growth_table <> []
  /\ exists out,
       calculate_sector_growth growth_table = Ok out
       /\ sum_list
            (map (fun s => length (group_of (SectorGrowth.Sector s) growth_table))
               out)
          = 2.
Proof.
  assert (Hne : growth_table <> []) by discriminate.
  split; [exact Hne |].
  destruct (sector_groups_partition growth_table Hne) as (out & H & _ & Hsum).
  exists out. split; [exact H |]. rewrite Hsum. reflexivity.
Defined.

Lemma no_label_no_key (l : list company_growth) :
  Forall (fun g => isna (Sector g) = true) l ->
  List.filter (fun c => negb (isna c)) (map Sector l) = [].
Proof.
  induction 1 as [| g l Hg _ IH]; simpl; [reflexivity |].
  rewrite Hg. exact IH.
Qed.

(** X6. When no growth record has a sector, the sector table is empty; it
    is not an error. *)
Theorem no_sector_gives_empty_table (growth_df : list company_growth) :
  growth_df <> [] ->
  Forall (fun g => isna (Sector g) = true) growth_df ->
  calculate_sector_growth growth_df = Ok [].
Proof.
  intros Hne Hall. unfold calculate_sector_growth, group_keys.
  rewrite (no_label_no_key _ Hall).
  destruct growth_df; [congruence | reflexivity].
Qed.

Lemma no_sector_gives_empty_table_witness :
  calculate_sector_growth [growth_XYZ] = Ok [].
Proof.
  apply no_sector_gives_empty_table.
  - discriminate.
  - repeat constructor.
Defined.

(** ** The sector aggregator: order and median *)

Lemma no_number_among_text (keys : list cell) :
  Forall (fun c => is_text c = true) keys -> List.filter is_number keys = [].
Proof.
  induction 1 as [| c keys Hc _ IH]; simpl; [reflexivity |].
  destruct c as [z | f | t]; [discriminate | discriminate | exact IH].
Qed.


(** X7. When the sectors are text, as the sector names of the workbook
    are, the records of the sector table come in the ascending order of
    their labels. *)
Theorem sector_table_is_ordered (growth_df : list company_growth) :
  growth_df <> [] ->
  Forall (fun g => isna (Sector g) = true \/ is_text (Sector g) = true)
    growth_df ->
  exists out texts,
    calculate_sector_growth growth_df = Ok out
    /\ map SectorGrowth.Sector out = map Text texts
    /\ ascending String.leb texts.
Proof.
  intros Hne Htext. destruct (calculate_sector_growth_total _ Hne) as [out H].
  pose proof (sector_table_labels _ _ H) as Hlabels.
  unfold group_keys, sort_keys in Hlabels.
  set (keys := unique (List.filter (fun c => negb (isna c))
                         (map Sector growth_df))) in *.
  assert (Hkeys : Forall (fun c => is_text c = true) keys).
  { apply Forall_forall. intros c Hc. apply list_elem_of_In in Hc.
    apply unique_incl, filter_In in Hc as [Hc Hna].
    apply in_map_iff in Hc as (g & <- & Hg).
    rewrite Forall_forall in Htext.
    destruct (Htext g (proj2 (list_elem_of_In _ _) Hg)) as [Hn | Ht];
      [rewrite Hn in Hna; discriminate | exact Ht]. }
  rewrite (no_number_among_text keys Hkeys) in Hlabels. simpl in Hlabels.
  exists out, (sort_by String.leb (omap text_of keys)).
  split; [exact H |]. split; [exact Hlabels |].
  apply (sort_by_ascending String.leb (fun _ => True)).
  - intros x y _ _. apply String.leb_total.
  - apply Forall_forall. intros x _. exact I.
Qed.

(** The growth table of the worked workbook. *)
Lemma sector_table_is_ordered_witness :
  growth_table <> []
  /\ Forall (fun g => isna (Sector g) = true \/ is_text (Sector g) = true)
       growth_table
  /\ exists out texts,
       calculate_sector_growth growth_table = Ok out
       /\ map SectorGrowth.Sector out = map Text texts
       /\ ascending String.leb texts.
Proof.
  assert (Hne : growth_table <> []) by discriminate.
  assert (Ht : Forall (fun g => isna (Sector g) = true
                               \/ is_text (Sector g) = true) growth_table).
  { repeat apply Forall_cons_2; [right | right | left | constructor];
      reflexivity. }
  split; [exact Hne |]. split; [exact Ht |].
  exact (sector_table_is_ordered growth_table Hne Ht).
Defined.

Lemma pd_median_odd (l : list float) :
  Nat.odd (length (dropna l)) = true -> In (pd_median l) (dropna l).
Proof.
  intros Hodd. unfold pd_median.
  pose proof (sort_by_perm PrimFloat.leb (dropna l)) as Hperm.
  rewrite (Permutation_length Hperm), Hodd.
  destruct (length (dropna l)) as [| n] eqn:Hlen; [discriminate |].
  apply (Permutation_in _ Hperm), nth_In.
  rewrite (Permutation_length Hperm), Hlen.
  apply Nat.div_lt; lia.
Qed.

Lemma pd_median_single (l : list float) (x : float) :
  dropna l = [x] -> pd_median l = x.
Proof. intros H. unfold pd_median. rewrite H. reflexivity. Qed.

Lemma key_eqb_respects (k k' c : cell) :
  key_class k = key_class k' -> key_eqb k c = key_eqb k' c.
Proof.
  intros Hk.
  destruct (key_eqb k c) eqn:H1, (key_eqb k' c) eqn:H2; try reflexivity.
  - apply key_eqb_class in H1. rewrite Hk in H1.
    apply key_eqb_class in H1. congruence.
  - apply key_eqb_class in H2. rewrite <- Hk in H2.
    apply key_eqb_class in H2. congruence.
Qed.

Lemma group_of_class (k k' : cell) (l : list company_growth) :
  key_class k = key_class k' -> group_of k l = group_of k' l.
Proof.
  intros Hk. unfold group_of. induction l as [| g l IH]; simpl; [reflexivity |].
  rewrite (key_eqb_respects k k' _ Hk), IH. reflexivity.
Qed.

(** X8. Every sector that some growth record carries has a record in the
    sector table; when that company is the only one of its sector with a
    defined average, the sector shows the average of that company; and
    whenever the number of defined averages of a sector is odd, the value
    of the sector table is the average of one of the companies of that
    sector. *)
Theorem odd_group_shows_a_company (growth_df : list company_growth) :
  growth_df <> [] ->
  exists out,
    calculate_sector_growth growth_df = Ok out
    /\ (forall g m, In g growth_df -> isna (Sector g) = false ->
          exists s, In s out
            /\ key_eqb (SectorGrowth.Sector s) (Sector g) = true
            /\ (dropna (map (Avg_Growth m) (group_of (Sector g) growth_df))
                = [Avg_Growth m g] ->
                SectorGrowth.Avg_Growth m s = Avg_Growth m g))
    /\ forall s m, In s out ->
         Nat.odd
           (length (dropna (map (Avg_Growth m)
                              (group_of (SectorGrowth.Sector s) growth_df))))
         = true ->
         exists g, In g growth_df
                   /\ key_eqb (SectorGrowth.Sector s) (Sector g) = true
                   /\ Avg_Growth m g = SectorGrowth.Avg_Growth m s.
Proof.
  intros Hne. destruct (calculate_sector_growth_total _ Hne) as [out H].
  exists out. split; [exact H |]. split.
  - intros g m Hg Hna.
    destruct (group_keys_covers _ _ Hg Hna) as (k & Hk & Hkg).
    exists (sector_record growth_df k). split; [| split].
    + rewrite (sector_table_inv _ _ H). apply in_map, Hk.
    + exact Hkg.
    + intros Hone. rewrite sector_record_value. unfold agg_median.
      apply key_eqb_class in Hkg.
      rewrite (group_of_class _ _ _ Hkg). apply pd_median_single, Hone.
  - intros s m Hs Hodd.
    rewrite (sector_table_inv _ _ H) in Hs.
    apply in_map_iff in Hs as (k & <- & _).
    rewrite sector_record_value. simpl in Hodd |- *.
    apply pd_median_odd in Hodd. apply filter_In in Hodd as [Hin _].
    apply in_map_iff in Hin as (g & Hg & Hin).
    apply filter_In in Hin as [Hin Hk].
    exists g. split; [exact Hin |]. split; [exact Hk | exact Hg].
Qed.

(** Company A alone in sector Tech. *)
Lemma odd_group_shows_a_company_witness :
  [growth_A; growth_XYZ] <> []
  /\ exists out s,
       calculate_sector_growth [growth_A; growth_XYZ] = Ok out
       /\ In s out
       /\ key_eqb (SectorGrowth.Sector s) (Sector growth_A) = true
       /\ SectorGrowth.Avg_Growth Total_Revenue s
          = Avg_Growth Total_Revenue growth_A.
Proof.
  assert (Hne : [growth_A; growth_XYZ] <> []) by discriminate.
  split; [exact Hne |].
  destruct (odd_group_shows_a_company [growth_A; growth_XYZ] Hne)
    as (out & H & Hcover & _).
  destruct (Hcover growth_A Total_Revenue (or_introl eq_refl) eq_refl)
    as (s & Hs & Hkey & Hval).
  exists out, s. split; [exact H |]. split; [exact Hs |].
  split; [exact Hkey |]. apply Hval. vm_compute. reflexivity.
Defined.

(** ** The loader: rows of the join *)

Lemma merge_row_length sector_df (r : row) key :
  length (merge_row sector_df r key)
  = Nat.max 1 (length (matches key sector_df)).
Proof.
  unfold merge_row. destruct (matches key sector_df) as [| e ms]; simpl.
  - reflexivity.
  - rewrite length_map. reflexivity.
Qed.

Lemma merge_row_from sector_df (r : row) key j :
  In j (merge_row sector_df r key) ->
  exists entry,
    j = join_row r entry
    /\ ((matches key sector_df = [] /\ entry = (NaN, NaN))
        \/ (In entry sector_df /\ key_eqb key (fst entry) = true)).
Proof.
  unfold merge_row. destruct (matches key sector_df) as [| e ms] eqn:Hms.
  - intros [<- | []]. exists (NaN, NaN). auto.
  - intros Hj. apply in_map_iff in Hj as (entry & <- & Hin).
    exists entry. split; [reflexivity |]. right.
    rewrite <- Hms in Hin. apply filter_In in Hin. exact Hin.
Qed.

Lemma join_rows_from financial_df sector_df keys :
  Forall2 (fun (r : row) key => r !! "Exchange:Ticker" = Some key)
    financial_df keys ->
  Forall (joined_from financial_df sector_df)
    (concat (zip_with (merge_row sector_df) financial_df keys)).
Proof.
  induction 1 as [| r key rest keys Hkey _ IH]; simpl; [constructor |].
  apply Forall_app. split.
  - apply Forall_forall. intros j Hj. apply list_elem_of_In in Hj.
    destruct (merge_row_from _ _ _ _ Hj) as (entry & -> & Hentry).
    exists r, key, entry. split; [left; reflexivity |]. auto.
  - eapply Forall_impl; [exact IH |].
    intros j (r' & key' & entry & Hin & Hk & -> & Hentry).
    exists r', key', entry. split; [right; exact Hin |]. auto.
Qed.

Lemma join_rows_length financial_df sector_df keys :
  length financial_df = length keys ->
  length (concat (zip_with (merge_row sector_df) financial_df keys))
  = sum_list (map (fun key => Nat.max 1 (length (matches key sector_df))) keys).
Proof.
  revert keys. induction financial_df as [| r rest IH]; intros [| key keys];
    simpl; try discriminate; [reflexivity |].
  intros [= Hlen]. rewrite length_app, merge_row_length, (IH keys Hlen).
  reflexivity.
Qed.

Lemma sum_list_at_least (f : cell -> nat) (keys : list cell) :
  (forall key, 1 <= f key) -> length keys <= sum_list (map f keys).
Proof.
  intros Hf. induction keys as [| key keys IH]; simpl; [lia |].
  specialize (Hf key). lia.
Qed.

Lemma left_join_rows
    (financial_df : list row) (sector_df : list (cell * cell))
    (out : list row) :
  load_and_preprocess_data financial_df sector_df = Ok out ->
  length financial_df <= length out
  /\ Forall (joined_from financial_df sector_df) out.
Proof.
  intros Hload.
  destruct (load_inv _ _ _ Hload) as (keys & _ & Hkeys & _ & ->).
  apply left_keys_lookup in Hkeys.
  pose proof (Forall2_length _ _ _ Hkeys) as Hlen.
  split; [| apply join_rows_from, Hkeys].
  rewrite (join_rows_length _ _ _ Hlen), Hlen.
  apply sum_list_at_least. intros key. lia.
Qed.



Lemma left_keys_missing financial_df :
  Exists (fun r : row => r !! "Exchange:Ticker" = None) financial_df ->
  left_keys financial_df = Raise KeyError.
Proof.
  induction 1 as [r rest Hr | r rest _ IH]; simpl.
  - rewrite Hr. reflexivity.
  - destruct (r !! "Exchange:Ticker"); [| reflexivity].
    rewrite IH. reflexivity.
Qed.

(** X10. The loader names the columns of the sector sheet before it looks
    for the ticker column of the financial sheet: when a financial row
    has no [Exchange:Ticker] column the loader ends in [ValueError] on a
    sector sheet without rows, and in [KeyError] on any other. *)
Theorem missing_ticker_column_aborts
    (financial_df : list row) (sector_df : list (cell * cell)) :
  Exists (fun r : row => r !! "Exchange:Ticker" = None) financial_df ->
  load_and_preprocess_data financial_df sector_df
  = Raise match sector_df with
          | [] => ValueError
          | _ :: _ => KeyError
          end.
Proof.
  intros H. unfold load_and_preprocess_data, name_columns.
  destruct sector_df as [| e sd]; [reflexivity |].
  rewrite (left_keys_missing _ H). reflexivity.
Qed.

(** Company A without its ticker column. *)
Lemma missing_ticker_column_aborts_witness :
  load_and_preprocess_data [delete "Exchange:Ticker" company_A] sector_sheet
  = Raise KeyError
  /\ load_and_preprocess_data [delete "Exchange:Ticker" company_A] []
     = Raise ValueError.
Proof.
  assert (H : Exists (fun r : row => r !! "Exchange:Ticker" = None)
                [delete "Exchange:Ticker" company_A])
    by (constructor; apply lookup_delete_eq).
  split.
  - exact (missing_ticker_column_aborts _ sector_sheet H).
  - exact (missing_ticker_column_aborts _ [] H).
Defined.

(** ** The loader and the calculator together *)

Lemma unidentified_row_raises (df : list row) :
  Exists (fun r => ~ identified r) df ->
  result (calculate_growth_rates df) = Raise KeyError.
Proof.
  induction df as [| r df IH]; intros Hex; [inversion Hex |]. simpl.
  destruct (identified_dec r) as [Hid | Hno].
  - destruct Hid as ([t Ht] & [n Hn] & [s Hs]).
    rewrite (company_growth_of_eq r t n s Ht Hn Hs), bind_ok. cbv beta.
    apply Exists_cons in Hex as [Hno | Hex].
    + exfalso. apply Hno. unfold identified. rewrite Ht, Hn, Hs. eauto.
    + rewrite (M_eta (calculate_growth_rates df)), (IH Hex). reflexivity.
  - rewrite (company_growth_of_unidentified r Hno). reflexivity.
Qed.

Lemma join_row_own_sector (r : row) entry :
  is_Some (r !! "Sector") -> join_row r entry !! "Sector" = None.
Proof.
  intros [old Hold]. unfold join_row.
  assert (Hs : add_right_column "Ticker" (fst entry) r !! "Sector"
               = r !! "Sector")
    by (apply add_right_column_other; discriminate).
  unfold add_right_column at 1. rewrite Hs, Hold. simpl.
  rewrite !lookup_insert_ne by discriminate. apply lookup_delete_eq.
Qed.

Lemma merge_row_own_sector sector_df (r : row) key :
  is_Some (r !! "Sector") ->
  Exists (fun j => ~ identified j) (merge_row sector_df r key).
Proof.
  intros Hs.
  assert (Hall : Forall (fun j => ~ identified j) (merge_row sector_df r key)).
  { apply Forall_forall. intros j Hj. apply list_elem_of_In in Hj.
    destruct (merge_row_from _ _ _ _ Hj) as (entry & -> & _).
    intros (_ & _ & [x Hx]). rewrite (join_row_own_sector r entry Hs) in Hx.
    discriminate. }
  pose proof (merge_row_length sector_df r key) as Hlen.
  destruct (merge_row sector_df r key) as [| j js]; [simpl in Hlen; lia |].
  apply Forall_cons in Hall as [Hj _]. apply Exists_cons_hd, Hj.
Qed.

(** X11. A financial sheet that brings a [Sector] column of its own breaks
    the dashboard: the join keeps the two sector columns apart under the
    names [Sector_x] and [Sector_y], no column is called [Sector] any
    more, and the growth calculator ends in [KeyError]. *)
Theorem own_sector_column_aborts
    (financial_df : list row) (sector_df : list (cell * cell))
    (joined : list row) :
  load_and_preprocess_data financial_df sector_df = Ok joined ->
  Exists (fun r : row => is_Some (r !! "Sector")) financial_df ->
  result (calculate_growth_rates joined) = Raise KeyError.
Proof.
  intros H Hex.
  destruct (load_inv _ _ _ H) as (keys & _ & Hkeys & _ & ->).
  apply unidentified_row_raises.
  apply left_keys_lookup in Hkeys. clear H.
  induction Hkeys as [| r key rest keys Hkey _ IH]; [inversion Hex |].
  simpl. apply Exists_app.
  apply Exists_cons in Hex as [Hs | Hex].
  - left. apply merge_row_own_sector, Hs.
  - right. apply IH, Hex.
Qed.

(** Company A with a sector column in the financial sheet. *)
Lemma own_sector_column_aborts_witness :
  load_and_preprocess_data [<["Sector" := Text "Tech"]> company_A] sector_sheet
  = Ok [join_row (<["Sector" := Text "Tech"]> company_A) (Text "A", Text "Tech")]
  /\ Exists (fun r : row => is_Some (r !! "Sector"))
       [<["Sector" := Text "Tech"]> company_A]
  /\ result (calculate_growth_rates
               [join_row (<["Sector" := Text "Tech"]> company_A)
                  (Text "A", Text "Tech")])
     = Raise KeyError.
Proof.
  assert (Hl : load_and_preprocess_data
                 [<["Sector" := Text "Tech"]> company_A] sector_sheet
               = Ok [join_row (<["Sector" := Text "Tech"]> company_A)
                       (Text "A", Text "Tech")]).
  { rewrite (load_eq _ _ [Text "A"]).
    - reflexivity.
    - discriminate.
    - vm_compute. reflexivity.
    - reflexivity. }
  assert (Hs : Exists (fun r : row => is_Some (r !! "Sector"))
                 [<["Sector" := Text "Tech"]> company_A]).
  { constructor. exists (Text "Tech"). apply lookup_insert_eq. }
  split; [exact Hl |]. split; [exact Hs |].
  exact (own_sector_column_aborts _ _ _ Hl Hs).
Defined.

Lemma joined_row_identified financial_df sector_df (j : row) :
  Forall (fun r : row => is_Some (r !! "Company Name") /\ r !! "Sector" = None)
    financial_df ->
  joined_from financial_df sector_df j ->
  exists (r : row) key entry,
    In r financial_df
    /\ r !! "Exchange:Ticker" = Some key
    /\ j !! "Exchange:Ticker" = Some key
    /\ j !! "Company Name" = r !! "Company Name"
    /\ is_Some (r !! "Company Name")
    /\ j !! "Sector" = Some (snd entry)
    /\ ((matches key sector_df = [] /\ entry = (NaN, NaN))
        \/ (In entry sector_df /\ key_eqb key (fst entry) = true)).
Proof.
  intros Hall (r & key & entry & Hin & Hkey & -> & Hentry).
  rewrite Forall_forall in Hall.
  destruct (Hall r (proj2 (list_elem_of_In _ _) Hin)) as [Hname Hnone].
  exists r, key, entry. split; [exact Hin |]. split; [exact Hkey |].
  split.
  { rewrite join_row_other; [exact Hkey |]. simpl. intuition discriminate. }
  split.
  { apply join_row_other. simpl. intuition discriminate. }
  split; [exact Hname |]. split; [| exact Hentry].
  pose proof (join_row_sector r entry) as Hs.
  unfold sector_column in Hs. rewrite Hnone in Hs. exact Hs.
Qed.

(** X12. From the two sheets to the growth table: whenever the loader
    returns and every financial row has a company name and no [Sector]
    column of its own, the calculator returns a record for every joined
    row, and every growth record carries the ticker and the name of a
    financial row together with the sector the sheet lists for that
    ticker, or the missing value when the sheet does not list it. *)
Theorem sector_of_ticker_reaches_growth_table
    (financial_df : list row) (sector_df : list (cell * cell))
    (joined : list row) :
  load_and_preprocess_data financial_df sector_df = Ok joined ->
  Forall (fun r : row => is_Some (r !! "Company Name") /\ r !! "Sector" = None)
    financial_df ->
  exists gs,
    result (calculate_growth_rates joined) = Ok gs
    /\ length gs = length joined
    /\ length financial_df <= length gs
    /\ forall g, In g gs ->
         exists r : row,
           In r financial_df
           /\ r !! "Exchange:Ticker" = Some (Ticker g)
           /\ r !! "Company Name" = Some (Company_Name g)
           /\ ((matches (Ticker g) sector_df = [] /\ Sector g = NaN)
               \/ (exists ticker, In (ticker, Sector g) sector_df
                                  /\ key_eqb (Ticker g) ticker = true)).
Proof.
  intros Hl Hall.
  destruct (left_join_rows _ _ _ Hl) as [Hlen Hfrom].
  assert (Hid : Forall identified joined).
  { eapply Forall_impl; [exact Hfrom |]. intros j Hj.
    destruct (joined_row_identified _ _ _ Hall Hj)
      as (r & key & entry & _ & _ & Hk & Hn & [n Hname] & Hs & _).
    unfold identified. rewrite Hk, Hn, Hname, Hs. eauto. }
  destruct (calculate_growth_rates_total joined Hid) as [gs Hgs].
  exists gs. split; [exact Hgs |].
  pose proof (calculate_growth_rates_inv _ _ Hgs) as Hrec.
  pose proof (growth_table_length _ _ Hgs) as Hgl.
  split; [exact Hgl |]. split; [lia |].
  intros g Hg. apply list_elem_of_In, list_elem_of_lookup in Hg as [k Hg].
  destruct (Forall2_lookup_r _ _ _ _ _ Hrec Hg)
    as (j & Hj & t & n & s & Ht & Hn & Hs & ->).
  rewrite Forall_forall in Hfrom.
  assert (Hjin : j ∈ joined) by (apply list_elem_of_lookup; eauto).
  destruct (joined_row_identified _ _ _ Hall (Hfrom j Hjin))
    as (r & key & entry & Hin & Hkey & Hk & Hname & _ & Hsec & Hentry).
  exists r. simpl.
  rewrite Ht in Hk. injection Hk as ->.
  rewrite Hs in Hsec. injection Hsec as ->.
  split; [exact Hin |]. split; [exact Hkey |].
  split; [rewrite <- Hname; exact Hn |].
  destruct Hentry as [[Hnone ->] | [He Hk]]; [left; auto |].
  right. exists (fst entry). destruct entry. auto.
Qed.

(** The worked workbook. *)
Lemma sector_of_ticker_reaches_growth_table_witness :
  load_and_preprocess_data financial_sheet sector_sheet = Ok joined_sheet
  /\ Forall (fun r : row => is_Some (r !! "Company Name")
                            /\ r !! "Sector" = None) financial_sheet
  /\ exists gs,
       result (calculate_growth_rates joined_sheet) = Ok gs
       /\ length gs = length joined_sheet
       /\ length financial_sheet <= length gs.
Proof.
  assert (Hall : Forall (fun r : row => is_Some (r !! "Company Name")
                                       /\ r !! "Sector" = None)
                   financial_sheet).
  { repeat apply Forall_cons_2; try apply Forall_nil_2;
      (split; [eexists; vm_compute; reflexivity | vm_compute; reflexivity]). }
  assert (Hl : load_and_preprocess_data financial_sheet sector_sheet
               = Ok joined_sheet).
  { rewrite (load_eq _ _ [Text "A"; Text "B"; Text "XYZ"]).
    - reflexivity.
    - discriminate.
    - vm_compute. reflexivity.
    - reflexivity. }
  split; [exact Hl |]. split; [exact Hall |].
  destruct (sector_of_ticker_reaches_growth_table
              financial_sheet sector_sheet joined_sheet Hl Hall)
    as (gs & Hgs & Hlen & Hle & _).
  exists gs. auto.
Defined.

(** ** The pipeline of [main] *)

Lemma main_views_inv financial_df sector_df select v :
  result (main_views financial_df sector_df select) = Ok v ->
  exists joined growth sector_growth,
    load_and_preprocess_data financial_df sector_df = Ok joined
    /\ result (calculate_growth_rates joined) = Ok growth
    /\ calculate_sector_growth growth = Ok sector_growth
    /\ v = filter_data (select (sector_options growth))
             {| growth_df := growth; sector_growth_df := sector_growth |}.
Proof.
  unfold main_views, lift. intros H.
  destruct (load_and_preprocess_data financial_df sector_df) as [joined | e];
    [| discriminate].
  rewrite bind_ok in H. cbv beta in H.
  destruct (calculate_growth_rates joined) as [[growth | e] t] eqn:Hg;
    [| discriminate].
  rewrite bind_ok in H. cbv beta in H.
  destruct (calculate_sector_growth growth) as [sector_growth | e] eqn:Hs;
    [| discriminate].
  rewrite bind_ok in H. simpl in H. injection H as <-.
  exists joined, growth, sector_growth. repeat split.
  - rewrite Hg. reflexivity.
  - exact Hs.
Qed.

Lemma filter_all {A} (f : A -> bool) (l : list A) :
  (forall x, In x l -> f x = true) -> List.filter f l = l.
Proof.
  induction l as [| x l IH]; simpl; intros H; [reflexivity |].
  rewrite (H x) by (left; reflexivity).
  rewrite IH by (intros y Hy; apply H; right; exact Hy). reflexivity.
Qed.

Lemma isin_options (growth : list company_growth) (g : company_growth) :
  In g growth -> isin (sector_options growth) (Sector g) = true.
Proof.
  intros Hg. unfold isin, sector_options.
  destruct (unique_covers (map Sector growth) (Sector g) (in_map _ _ _ Hg))
    as (k & Hk & Heq).
  apply existsb_exists. exists k. split; [exact Hk |].
  rewrite key_eqb_sym. exact Heq.
Qed.

(** X13. With the default of the sector selector, all the options, the
    two views show the derived tables whole: every company, those without
    a sector too, and every sector. *)
Theorem default_selection_shows_everything
    (financial_df : list row) (sector_df : list (cell * cell)) (v : views) :
  result (main_views financial_df sector_df (fun options => options)) = Ok v ->
  filtered_growth_df v = growth_df (underlying v)
  /\ filtered_sector_growth_df v = sector_growth_df (underlying v).
Proof.
  intros H.
  destruct (main_views_inv _ _ _ _ H)
    as (joined & growth & sector_growth & _ & _ & Hs & ->).
  simpl. split.
  - apply filter_all. intros g Hg. apply isin_options, Hg.
  - apply filter_all. intros s Hin.
    assert (Hk : In (SectorGrowth.Sector s) (group_keys growth))
      by (rewrite <- (sector_table_labels _ _ Hs); apply in_map, Hin).
    apply group_keys_spec in Hk as (_ & g & Hg & <-).
    apply isin_options, Hg.
Qed.

(** The worked workbook under the default selection. *)
Lemma default_selection_shows_everything_witness :
  result (main_views financial_sheet sector_sheet (fun options => options))
  = Ok {| underlying := {| growth_df := growth_table;
                           sector_growth_df := [sector_Tech] |};
          filtered_growth_df := growth_table;
          filtered_sector_growth_df := [sector_Tech] |}
  /\ filtered_growth_df
       {| underlying := {| growth_df := growth_table;
                           sector_growth_df := [sector_Tech] |};
          filtered_growth_df := growth_table;
          filtered_sector_growth_df := [sector_Tech] |}
     = growth_table.
Proof.
  assert (H : result (main_views financial_sheet sector_sheet
                        (fun options => options))
              = Ok {| underlying := {| growth_df := growth_table;
                                       sector_growth_df := [sector_Tech] |};
                      filtered_growth_df := growth_table;
                      filtered_sector_growth_df := [sector_Tech] |})
    by (vm_compute; reflexivity).
  split; [exact H |].
  exact (proj1 (default_selection_shows_everything _ _ _ H)).
Defined.

Lemma isin_class (selected : list cell) (c c' : cell) :
  key_class c = key_class c' -> isin selected c = isin selected c'.
Proof.
  intros Hc. unfold isin.
  induction selected as [| x selected IH]; simpl; [reflexivity |].
  rewrite IH. f_equal.
  destruct (key_eqb c x) eqn:H1, (key_eqb c' x) eqn:H2; try reflexivity.
  - apply key_eqb_class in H1. rewrite Hc in H1.
    apply key_eqb_class in H1. congruence.
  - apply key_eqb_class in H2. rewrite <- Hc in H2.
    apply key_eqb_class in H2. congruence.
Qed.

(** X14. The two views go together: for any selection, a company with a
    sector is shown in the company view exactly when the record of its
    sector is shown in the sector view. *)
Theorem views_show_a_sector_with_its_companies
    (selected_sectors : list cell) (d : tables)
    (g : company_growth) (s : SectorGrowth.t) :
  In g (growth_df d) -> In s (sector_growth_df d) ->
  key_eqb (SectorGrowth.Sector s) (Sector g) = true ->
  (In g (filtered_growth_df (filter_data selected_sectors d))
   <-> In s (filtered_sector_growth_df (filter_data selected_sectors d))).
Proof.
  intros Hg Hs Heq. simpl. rewrite !filter_In.
  apply key_eqb_class in Heq.
  rewrite (isin_class selected_sectors _ _ Heq). tauto.
Qed.

(** Sector Tech and company A under the selection of Tech alone. *)
Lemma views_show_a_sector_with_its_companies_witness :
  In growth_A
    (filtered_growth_df
       (filter_data [Text "Tech"]
          {| growth_df := growth_table; sector_growth_df := [sector_Tech] |}))
  <-> In sector_Tech
        (filtered_sector_growth_df
           (filter_data [Text "Tech"]
              {| growth_df := growth_table;
                 sector_growth_df := [sector_Tech] |})).
Proof.
  apply (views_show_a_sector_with_its_companies [Text "Tech"]
           {| growth_df := growth_table; sector_growth_df := [sector_Tech] |}).
  - left. reflexivity.
  - left. reflexivity.
  - reflexivity.
Defined.

(** X15. A financial sheet without any row makes the dashboard fail: on a
    sector sheet without rows the loader ends in [ValueError]; on any
    other the join and the growth calculator return empty tables, and the
    sector aggregator ends in [KeyError], for there is no [Sector] column
    to group by.  Whenever the dashboard has views to show, both sheets
    have a row and the company table has at least as many records as the
    financial sheet has rows. *)
Theorem dashboard_needs_a_row
    (sector_df : list (cell * cell)) (select : list cell -> list cell) :
  result (main_views [] sector_df select)
  = Raise match sector_df with
          | [] => ValueError
          | _ :: _ => KeyError
          end
  /\ forall financial_df v,
       result (main_views financial_df sector_df select) = Ok v ->
       financial_df <> [] /\ sector_df <> []
       /\ length financial_df <= length (growth_df (underlying v)).
Proof.
  split; [destruct sector_df; reflexivity |]. intros financial_df v H.
  destruct (main_views_inv _ _ _ _ H)
    as (joined & growth & sector_growth & Hl & Hg & Hs & ->).
  simpl.
  destruct (left_join_rows _ _ _ Hl) as [Hlen _].
  pose proof (growth_table_length _ _ Hg) as Hgl.
  destruct (load_inv _ _ _ Hl) as (keys & Hne & Hkeys & _ & Hout).
  split; [| split; [exact Hne | lia]].
  intros ->. simpl in Hkeys. injection Hkeys as <-. simpl in Hout. subst joined.
  simpl in Hg. injection Hg as <-. simpl in Hs. discriminate.
Qed.

(** The worked workbook has three rows and three growth records. *)
Lemma dashboard_needs_a_row_witness :
  result (main_views financial_sheet sector_sheet (fun options => options))
  = Ok {| underlying := {| growth_df := growth_table;
                           sector_growth_df := [sector_Tech] |};
          filtered_growth_df := growth_table;
          filtered_sector_growth_df := [sector_Tech] |}
  /\ financial_sheet <> [] /\ sector_sheet <> []
  /\ length financial_sheet <= length growth_table.
Proof.
  assert (H : result (main_views financial_sheet sector_sheet
                        (fun options => options))
              = Ok {| underlying := {| growth_df := growth_table;
                                       sector_growth_df := [sector_Tech] |};
                      filtered_growth_df := growth_table;
                      filtered_sector_growth_df := [sector_Tech] |})
    by (vm_compute; reflexivity).
  split; [exact H |].
  exact (proj2 (dashboard_needs_a_row sector_sheet (fun options => options))
           financial_sheet _ H).
Defined.

(** ** The growth calculator: what a slot tells *)

Lemma slot_of_cells (c p : cell) :
  match result (growth_of_values c p) with Ok v => v | Raise _ => None end
  = if not_a_number c || not_a_number p || eq_zero p then None
    else percent_change c p.
Proof.
  destruct (isna c || isna p || eq_zero p) eqn:Hg.
  { rewrite (growth_of_values_guarded _ _ Hg).
    assert (Hbad : not_a_number c || not_a_number p || eq_zero p = true).
    { destruct c as [a | x | s], p as [b | y | s']; simpl in Hg |- *;
        rewrite ?orb_true_r; auto. }
    rewrite Hbad. reflexivity. }
  destruct (not_a_number c || not_a_number p) eqn:Hn.
  { rewrite (growth_of_values_text _ _ Hg Hn). reflexivity. }
  assert (Hz : eq_zero p = false)
    by (apply orb_false_iff in Hg as [_ Hz]; exact Hz).
  rewrite Hz. cbn [orb].
  destruct c as [a | x | s], p as [b | y | s']; simpl in Hg, Hn, Hz;
    try discriminate; try (rewrite orb_true_r in Hn; discriminate).
  - assert (Hb : b <> 0%Z) by (intros ->; discriminate).
    rewrite (growth_of_values_ints a b Hb). unfold percent_change.
    destruct (int_truediv (a - b) b); reflexivity.
  - rewrite (growth_of_values_int_float a y Hn Hz). unfold percent_change.
    destruct (float_of_int a); reflexivity.
  - assert (Hb : b <> 0%Z) by (intros ->; discriminate).
    rewrite orb_false_r in Hn.
    rewrite (growth_of_values_float_int x b Hn Hb). unfold percent_change.
    destruct (float_of_int b); reflexivity.
  - rewrite (growth_of_values_numbers x y Hg). reflexivity.
Qed.

(** X16. The growth table has a record for every row, and every slot of
    it is told by the two endpoint cells of its row: [None] when a cell is
    missing from the row, holds no number or the prior value is zero, and
    otherwise line 53 on the two numbers.  So a slot holds a number only
    when it was computed from two numbers, the prior one not zero. *)
Theorem defined_slot_comes_from_two_numbers (df : list row) :
  Forall identified df ->
  exists gs,
    result (calculate_growth_rates df) = Ok gs
    /\ length gs = length df
    /\ forall k r g m i ci cp,
         df !! k = Some r -> gs !! k = Some g ->
         1 <= i <= 4 ->
         columns_of m !! i = Some ci -> columns_of m !! (i - 1) = Some cp ->
         Growth_Rates m g !! (i - 1)
         = Some match r !! ci, r !! cp with
                | Some c, Some p =>
                    if not_a_number c || not_a_number p || eq_zero p then None
                    else percent_change c p
                | _, _ => None
                end
         /\ forall v, Growth_Rates m g !! (i - 1) = Some (Some v) ->
              exists c p,
                r !! ci = Some c /\ r !! cp = Some p
                /\ not_a_number c = false /\ not_a_number p = false
                /\ eq_zero p = false /\ percent_change c p = Some v.
Proof.
  intros Hid. destruct (calculate_growth_rates_total df Hid) as [gs H].
  exists gs. split; [exact H |].
  split; [apply growth_table_length, H |].
  intros k r g m i ci cp Hr Hg Hi Hci Hcp.
  rewrite (growth_table_slot _ _ _ _ _ m i H Hr Hg Hi).
  assert (Hslot : slot_value r (columns_of m) i
                  = match r !! ci, r !! cp with
                    | Some c, Some p =>
                        if not_a_number c || not_a_number p || eq_zero p
                        then None else percent_change c p
                    | _, _ => None
                    end).
  { destruct (r !! ci) as [c |] eqn:Hc.
    2:{ eapply slot_value_missing; eauto. }
    destruct (r !! cp) as [p |] eqn:Hp.
    2:{ eapply slot_value_missing; eauto. }
    destruct (slot_value_of_values _ _ _ _ _ _ _ Hci Hcp Hc Hp) as [-> _].
    apply slot_of_cells. }
  rewrite Hslot. split; [reflexivity |].
  intros v [= Hv].
  destruct (r !! ci) as [c |]; [| discriminate].
  destruct (r !! cp) as [p |]; [| discriminate].
  destruct (not_a_number c || not_a_number p || eq_zero p) eqn:Hbad;
    [discriminate |].
  apply orb_false_iff in Hbad as [Hbad Hz].
  apply orb_false_iff in Hbad as [Hnc Hnp].
  exists c, p. auto 10.
Qed.

(** The first EBITDA slot of company B, and the slot after its text
    cell. *)
Lemma defined_slot_comes_from_two_numbers_witness :
  Forall identified joined_sheet
  /\ exists gs g,
       result (calculate_growth_rates joined_sheet) = Ok gs
       /\ length gs = 3
       /\ gs !! 1 = Some g
       /\ Growth_Rates EBITDA g !! 0 = Some (Some 25%float)
       /\ Growth_Rates EBITDA g !! 1 = Some None.
Proof.
  assert (Hid : Forall identified joined_sheet)
    by (repeat constructor; eexists; vm_compute; reflexivity).
  split; [exact Hid |].
  destruct (defined_slot_comes_from_two_numbers joined_sheet Hid)
    as (gs & H & Hlen & Hslot).
  destruct (lookup_lt_is_Some_2 gs 1) as [g Hg]; [rewrite Hlen; simpl; lia |].
  exists gs, g. split; [exact H |]. split; [exact Hlen |].
  split; [exact Hg |]. split.
  - refine (eq_trans
              (proj1 (Hslot 1 (join_row company_B (Text "B", Text "Tech")) g
                        EBITDA 1 "EBITDA [LTM - 12]" "EBITDA [LTM - 16]"
                        eq_refl Hg ltac:(lia) eq_refl eq_refl)) _).
    vm_compute. reflexivity.
  - refine (eq_trans
              (proj1 (Hslot 1 (join_row company_B (Text "B", Text "Tech")) g
                        EBITDA 2 "EBITDA [LTM - 8]" "EBITDA [LTM - 12]"
                        eq_refl Hg ltac:(lia) eq_refl eq_refl)) _).
    vm_compute. reflexivity.
Defined.

(** ** The growth calculator: independence of the metrics *)

Lemma rates_agree (r r' : row) m :
  (forall c, In c (columns_of m) -> r !! c = r' !! c) ->
  rates r m = rates r' m.
Proof.
  intros H. unfold rates. apply map_ext. intros i.
  unfold slot_value. rewrite (growth_slot_agree r r' _ i H). reflexivity.
Qed.

(** X17. The metrics are independent of one another: the slots and the
    average of a metric depend on the five snapshot columns of that metric
    alone, so that whatever the columns of the other metrics hold, the
    growth of this metric is the same. *)
Theorem metrics_are_independent (df df' : list row) (m : metric) :
  Forall identified df -> Forall identified df' ->
  Forall2 (fun r r' : row =>
             forall c, In c (columns_of m) -> r !! c = r' !! c) df df' ->
  exists gs gs',
    result (calculate_growth_rates df) = Ok gs
    /\ result (calculate_growth_rates df') = Ok gs'
    /\ Forall2 (fun g g' => Growth_Rates m g = Growth_Rates m g'
                            /\ Avg_Growth m g = Avg_Growth m g') gs gs'.
Proof.
  intros Hid Hid' Hagree.
  destruct (calculate_growth_rates_total df Hid) as [gs H].
  destruct (calculate_growth_rates_total df' Hid') as [gs' H'].
  exists gs, gs'. split; [exact H |]. split; [exact H' |].
  apply calculate_growth_rates_inv in H, H'.
  clear Hid Hid'. revert gs gs' H H'.
  induction Hagree as [| r r' df df' Hr _ IH]; intros gs gs' H H'.
  - inversion H. inversion H'. constructor.
  - inversion H as [| ? g ? gs0 Hg Hgs]; subst.
    inversion H' as [| ? g' ? gs0' Hg' Hgs']; subst.
    constructor; [| apply IH; assumption].
    destruct Hg as (t & n & s & _ & _ & _ & ->).
    destruct Hg' as (t' & n' & s' & _ & _ & _ & ->).
    rewrite !Growth_Rates_record, !Avg_Growth_record, (rates_agree r r' m Hr).
    split; reflexivity.
Qed.

(** Company B with other net income figures: its revenue growth stays. *)
Lemma metrics_are_independent_witness :
  exists gs gs',
    result (calculate_growth_rates
              [join_row company_B (Text "B", Text "Tech")]) = Ok gs
    /\ result (calculate_growth_rates
                 [<["Net Income [LTM]" := Num 1]>
                    (join_row company_B (Text "B", Text "Tech"))]) = Ok gs'
    /\ Forall2 (fun g g' =>
                  Growth_Rates Total_Revenue g = Growth_Rates Total_Revenue g'
                  /\ Avg_Growth Total_Revenue g = Avg_Growth Total_Revenue g')
         gs gs'.
Proof.
  apply metrics_are_independent.
  - repeat constructor; eexists; vm_compute; reflexivity.
  - repeat constructor; eexists; vm_compute; reflexivity.
  - constructor; [| constructor].
    intros c Hc. symmetry. apply lookup_insert_ne. intros <-.
    simpl in Hc. intuition discriminate.
Defined.
